(** * crop_monsters.py: sprite-sheet slicer, egg icons and mystery icon

    A shallow embedding of [crop_monsters.py].  Pillow images are modelled
    by their mode, their size and a pixel-access function (the analogue of
    [img.load()]); NumPy's element-wise array expressions become point-wise
    functions on pixels; Python floats are IEEE binary64 values (Rocq's
    primitive floats); exceptions are values of an error monad; the output
    directory is a finite map from file names to entries. *)

From Stdlib Require Import ZArith QArith Lia List Bool String Ascii.
From Stdlib Require Import Strings.Byte.
From Stdlib Require Import Floats.PrimFloat Floats.FloatOps Floats.SpecFloat.
From Stdlib Require Import Numbers.Cyclic.Int63.Uint63.
From stdpp Require Import base gmap strings.
Import ListNotations.

#[local] Open Scope Z_scope.

(** ** Python numbers *)

Module Py.

(** [float(z)] for an integer that fits a machine word, as every image
    dimension and channel sum does. *)
Definition float_of_int (z : Z) : float :=
  if z <? 0 then PrimFloat.opp (PrimFloat.of_uint63 (Uint63.of_Z (- z)))
  else PrimFloat.of_uint63 (Uint63.of_Z z).

(** [int(f)]: truncation toward zero.  Python raises on infinities and
    NaN; no expression of the script produces one from finite image
    dimensions, and the model maps them to 0. *)
Definition int (f : float) : Z :=
  match Prim2SF f with
  | S754_finite s m e =>
      let v := if 0 <=? e then Z.pos m * 2 ^ e else Z.pos m / 2 ^ (- e) in
      if s then - v else v
  | _ => 0
  end.

(** [a / b] on two ints (true division), the divisor being non-zero. *)
Definition truediv (a b : Z) : float :=
  PrimFloat.div (float_of_int a) (float_of_int b).

(** [min(a, b)] on floats: the second argument wins only when it is
    strictly smaller. *)
Definition fmin (a b : float) : float :=
  if PrimFloat.ltb b a then b else a.

End Py.

(** ** Exceptions *)

Inductive exn : Type :=
| ValueError (msg : string)
| IndexError (msg : string)
| OSError (msg : string).

Inductive result (A : Type) : Type :=
| Ok (a : A)
| Raise (e : exn).
Arguments Ok {A} a.
Arguments Raise {A} e.

Definition bind {A B : Type} (m : result A) (k : A -> result B) : result B :=
  match m with
  | Ok a => k a
  | Raise e => Raise e
  end.

Notation "'do' x <- m ;; k" := (bind m (fun x => k))
  (at level 10, x name, m at level 99, k at level 200).

Definition is_ok {A : Type} (m : result A) : bool :=
  match m with Ok _ => true | Raise _ => false end.

(** ** Pixels and images *)

(** One [uint8] channel value. *)
Definition chan (b : byte) : Z := Z.of_N (Byte.to_N b).

(** Store an integer into a [uint8] (C cast: modulo 256). *)
Definition u8 (z : Z) : byte :=
  match Byte.of_N (Z.to_N (z mod 256)) with
  | Some b => b
  | None => Byte.x00
  end.

Record Pixel : Type := mkPixel { R : byte; G : byte; B : byte; A : byte }.

Definition rgba (r g b a : Z) : Pixel := mkPixel (u8 r) (u8 g) (u8 b) (u8 a).

Definition transparent : Pixel := rgba 0 0 0 0.

Inductive Mode : Type := M_1 | M_L | M_LA | M_P | M_RGB | M_RGBA.

Definition Mode_eqb (a b : Mode) : bool :=
  match a, b with
  | M_1, M_1 | M_L, M_L | M_LA, M_LA | M_P, M_P
  | M_RGB, M_RGB | M_RGBA, M_RGBA => true
  | _, _ => false
  end.

(** A Pillow image.  [getpixel x y] is the pixel at column [x], row [y],
    given as the image's RGBA view (what [convert('RGBA')] shows); it is
    meaningful for [x < width] and [y < height]. *)
Record Image : Type := mkImage {
  mode : Mode;
  width : nat;
  height : nat;
  getpixel : nat -> nat -> Pixel
}.

(** Two images are the same when mode, size and every pixel agree. *)
Definition same_image (a b : Image) : Prop :=
  mode a = mode b /\ width a = width b /\ height a = height b /\
  forall x y, getpixel a x y = getpixel b x y.

(** [Image.new('RGBA', (w, h), (0, 0, 0, 0))] *)
Definition Image_new (w h : nat) : Image :=
  mkImage M_RGBA w h (fun _ _ => transparent).

(** [img.convert('RGBA')] *)
Definition convert_RGBA (img : Image) : Image :=
  mkImage M_RGBA (width img) (height img) (getpixel img).

(** ** Checkerboard removal *)

(** [max_diff] of the source: the channels are widened to [int16], so the
    differences do not wrap. *)
Definition max_diff (p : Pixel) : Z :=
  let r := chan (R p) in
  let g := chan (G p) in
  let b := chan (B p) in
  Z.max (Z.max (Z.abs (r - g)) (Z.abs (g - b))) (Z.abs (r - b)).

(** [brightness = (r + g + b) / 3.0] *)
Definition brightness (p : Pixel) : float :=
  PrimFloat.div (Py.float_of_int (chan (R p) + chan (G p) + chan (B p))) 3%float.

(** [is_gray = (max_diff < 20) & (brightness > 180)] *)
Definition is_gray (p : Pixel) : bool :=
  (max_diff p <? 20) && PrimFloat.ltb 180%float (brightness p).

(** [np.where(is_gray, 0, data[:,:,3])] written back to the alpha plane. *)
Definition clear_gray (p : Pixel) : Pixel :=
  mkPixel (R p) (G p) (B p) (if is_gray p then Byte.x00 else A p).

Definition remove_checkerboard_bg (img : Image) : Image :=
  let img := if Mode_eqb (mode img) M_RGBA then img else convert_RGBA img in
  (* data = np.array(img); ...; Image.fromarray(data) *)
  mkImage M_RGBA (width img) (height img)
          (fun x y => clear_gray (getpixel img x y)).

(** ** Bounding box, crop, resize, paste *)

Definition visible (img : Image) (x y : nat) : bool :=
  negb (chan (A (getpixel img x y)) =? 0).

Definition col_visible (img : Image) (x : nat) : bool :=
  existsb (fun y => visible img x y) (seq 0 (height img)).

Definition row_visible (img : Image) (y : nat) : bool :=
  existsb (fun x => visible img x y) (seq 0 (width img)).

Definition Box : Type := (Z * Z * Z * Z)%type.

(** [img.getbbox()] on an image with an alpha channel ([alpha_only] is on
    by default): the smallest box [(left, upper, right, lower)] holding
    every pixel of non-zero alpha, or [None] when there is none. *)
Definition getbbox (img : Image) : option Box :=
  match List.filter (col_visible img) (seq 0 (width img)),
        List.filter (row_visible img) (seq 0 (height img)) with
  | x0 :: xs, y0 :: ys =>
      Some (Z.of_nat x0, Z.of_nat y0,
            Z.of_nat (List.last xs x0) + 1, Z.of_nat (List.last ys y0) + 1)
  | _, _ => None
  end.

(** [img.crop(box)]: the region is copied; what lies outside the source is
    transparent black; an inverted box is refused. *)
Definition Image_crop (img : Image) (box : Box) : result Image :=
  let '(lft, upr, rgt, lwr) := box in
  if rgt <? lft then
    Raise (ValueError "Coordinate 'right' is less than 'left'")
  else if lwr <? upr then
    Raise (ValueError "Coordinate 'lower' is less than 'upper'")
  else
    Ok (mkImage (mode img) (Z.to_nat (rgt - lft)) (Z.to_nat (lwr - upr))
          (fun x y =>
             let sx := lft + Z.of_nat x in
             let sy := upr + Z.of_nat y in
             if (0 <=? sx) && (sx <? Z.of_nat (width img)) &&
                (0 <=? sy) && (sy <? Z.of_nat (height img))
             then getpixel img (Z.to_nat sx) (Z.to_nat sy)
             else transparent)).

(** [BLEND(mask, in1, in2)] of Pillow's paste: [in1] weighted by
    [255 - mask] plus [in2] weighted by [mask], divided by 255 with
    rounding. *)
Definition blend (mask in1 in2 : Z) : Z :=
  let tmp := in1 * (255 - mask) + in2 * mask + 128 in
  Z.shiftr (Z.shiftr tmp 8 + tmp) 8.

Definition blend_pixel (out inp msk : Pixel) : Pixel :=
  let a := chan (A msk) in
  mkPixel (u8 (blend a (chan (R out)) (chan (R inp))))
          (u8 (blend a (chan (G out)) (chan (G inp))))
          (u8 (blend a (chan (B out)) (chan (B inp))))
          (u8 (blend a (chan (A out)) (chan (A inp)))).

(** [dst.paste(src, (ox, oy), msk)] with an RGBA mask of the size of
    [src]: inside the pasted region every band is blended by the mask's
    alpha, outside it [dst] is kept. *)
Definition Image_paste (dst src : Image) (ox oy : Z) (msk : Image) : Image :=
  mkImage (mode dst) (width dst) (height dst)
    (fun x y =>
       let sx := Z.of_nat x - ox in
       let sy := Z.of_nat y - oy in
       if (0 <=? sx) && (sx <? Z.of_nat (width src)) &&
          (0 <=? sy) && (sy <? Z.of_nat (height src))
       then blend_pixel (getpixel dst x y)
                        (getpixel src (Z.to_nat sx) (Z.to_nat sy))
                        (getpixel msk (Z.to_nat sx) (Z.to_nat sy))
       else getpixel dst x y).

(** [auto_crop_alpha] *)
Definition auto_crop_alpha (img : Image) : result Image :=
  let img := if Mode_eqb (mode img) M_RGBA then img else convert_RGBA img in
  match getbbox img with
  | None => Ok img
  | Some bbox => Image_crop img bbox
  end.

(** ** Configuration tables *)

Record Sheet : Type := mkSheet { file : string; species : list string }.

Definition SHEETS : list Sheet := [
  mkSheet "Gemini_Generated_Image_quvfovquvfovquvf.png"
          ["spirit_dog"; "chick_bird"; "young_scale"; "beetle"];
  mkSheet "Gemini_Generated_Image_tt5yqbtt5yqbtt5y.png"
          ["electric_mouse"; "hard_crab"; "mimic_lizard"; "seed_ball"];
  mkSheet "Gemini_Generated_Image_sug7njsug7njsug7.png"
          ["jellyfish"; "ore_giant"; "jungle_cub"; "sky_dragon"];
  mkSheet "Gemini_Generated_Image_nbsvaxnbsvaxnbsv.png"
          ["dune_bug"; "sonic_bat"; "snow_beast"; "circuit_fish"];
  mkSheet "Gemini_Generated_Image_tj9euntj9euntj9e.png"
          ["mushroom"; "crystal_beast"; "nebula_fish"; "clockwork_bird"]
]%string.

Definition COL_SUFFIXES : list string :=
  ["-2"; "-a3"; "-a4"; "-a5"; "-b3"; "-b4"; "-b5"]%string.

Record Colors : Type := mkColors {
  primary : string;
  secondary : string;
  spot : string
}.

(** The dict [EGG_COLORS], in insertion order (the order in which
    [EGG_COLORS.items()] yields it). *)
Definition EGG_COLORS : list (string * Colors) := [
  ("spirit_dog",     mkColors "#C8B896" "#A08868" "#E8D8C0");
  ("chick_bird",     mkColors "#A0C8E8" "#6898C0" "#C8E0F8");
  ("young_scale",    mkColors "#4A90B8" "#2A6088" "#78B0D0");
  ("beetle",         mkColors "#88A848" "#587828" "#A8C868");
  ("electric_mouse", mkColors "#E8D040" "#B8A020" "#F8E878");
  ("hard_crab",      mkColors "#B0886A" "#88603A" "#D0A88A");
  ("mimic_lizard",   mkColors "#B8B8B8" "#888888" "#D8D8D8");
  ("seed_ball",      mkColors "#68B048" "#408020" "#90D070");
  ("jellyfish",      mkColors "#88C0E8" "#5090C0" "#B0D8F8");
  ("ore_giant",      mkColors "#8888A0" "#585878" "#A8A8C0");
  ("jungle_cub",     mkColors "#58A038" "#387018" "#80C060");
  ("sky_dragon",     mkColors "#E88040" "#C06020" "#F8A868");
  ("dune_bug",       mkColors "#C8A868" "#987838" "#E0C890");
  ("sonic_bat",      mkColors "#9088B8" "#685898" "#B0A8D8");
  ("snow_beast",     mkColors "#C0D8E8" "#90B0C8" "#E0F0FF");
  ("circuit_fish",   mkColors "#4888B8" "#285888" "#70A8D8");
  ("mushroom",       mkColors "#C07848" "#904818" "#E09870");
  ("crystal_beast",  mkColors "#B090D0" "#8060A8" "#D0B8E8");
  ("nebula_fish",    mkColors "#6070B8" "#384090" "#8898D8");
  ("clockwork_bird", mkColors "#A0A0B0" "#707088" "#C0C0D0")
]%string.

(** ** Egg icons *)

Module Svg.

#[local] Open Scope string_scope.

(** The double-quote character and the line break of the template. *)
Definition dq : string := String (ascii_of_nat 34) EmptyString.
Definition nl : string := String (ascii_of_nat 10) EmptyString.

(** [ name="value"], with its leading blank. *)
Definition attr (name value : string) : string :=
  String.concat "" [" "; name; "="; dq; value; dq].

Definition line (indent : string) (parts : list string) : string :=
  String.concat "" (indent :: parts ++ [nl])%list.

End Svg.

(** [generate_egg_svg]: the f-string, line by line. *)
Definition generate_egg_svg (species : string) (colors : Colors) : string :=
  let attr := Svg.attr in
  let line := Svg.line in
  String.concat "" [
    line "" ["<svg"; attr "xmlns" "http://www.w3.org/2000/svg";
             attr "viewBox" "0 0 64 64"; attr "width" "256";
             attr "height" "256"; ">"];
    line "  " ["<defs>"];
    line "    " ["<radialGradient"; attr "id" "egg-grad"; attr "cx" "40%";
                 attr "cy" "35%"; attr "r" "60%"; ">"];
    line "      " ["<stop"; attr "offset" "0%";
                   attr "stop-color" (spot colors); "/>"];
    line "      " ["<stop"; attr "offset" "60%";
                   attr "stop-color" (primary colors); "/>"];
    line "      " ["<stop"; attr "offset" "100%";
                   attr "stop-color" (secondary colors); "/>"];
    line "    " ["</radialGradient>"];
    line "    " ["<radialGradient"; attr "id" "shine"; attr "cx" "35%";
                 attr "cy" "30%"; attr "r" "25%"; ">"];
    line "      " ["<stop"; attr "offset" "0%"; attr "stop-color" "white";
                   attr "stop-opacity" "0.6"; "/>"];
    line "      " ["<stop"; attr "offset" "100%"; attr "stop-color" "white";
                   attr "stop-opacity" "0"; "/>"];
    line "    " ["</radialGradient>"];
    line "  " ["</defs>"];
    line "  " ["<ellipse"; attr "cx" "32"; attr "cy" "35"; attr "rx" "18";
               attr "ry" "23"; attr "fill" "url(#egg-grad)";
               attr "stroke" (secondary colors); attr "stroke-width" "1.5";
               "/>"];
    line "  " ["<ellipse"; attr "cx" "28"; attr "cy" "28"; attr "rx" "8";
               attr "ry" "10"; attr "fill" "url(#shine)"; "/>"];
    line "  " ["<ellipse"; attr "cx" "38"; attr "cy" "42"; attr "rx" "4";
               attr "ry" "3"; attr "fill" (spot colors); attr "opacity" "0.5";
               "/>"];
    line "  " ["<ellipse"; attr "cx" "26"; attr "cy" "44"; attr "rx" "3";
               attr "ry" "2.5"; attr "fill" (spot colors);
               attr "opacity" "0.4"; "/>"];
    line "  " ["<ellipse"; attr "cx" "36"; attr "cy" "30"; attr "rx" "2.5";
               attr "ry" "2"; attr "fill" (spot colors); attr "opacity" "0.3";
               "/>"];
    "</svg>"
  ]%string.

(** ** Sheet geometry *)

(** The cell rectangle [(left, top, right, bottom)] that [main] computes
    for row [row_i] and column [col_i] of a sheet of [img_w] by [img_h]
    pixels. *)
Definition cell_bounds (img_w img_h row_i col_i : Z) : Box :=
  let num_rows := 4 in
  let num_cols := 7 in
  let content_width := img_w - 316 in
  let row_height := Py.truediv img_h num_rows in
  let col_width := Py.truediv content_width num_cols in
  let monster_height := PrimFloat.sub row_height (Py.float_of_int 120) in
  let h_inset := 30 in
  let v_inset_top := 12 in
  let lft := Py.int (PrimFloat.mul (Py.float_of_int col_i) col_width) + h_inset in
  let top := Py.int (PrimFloat.mul (Py.float_of_int row_i) row_height) + v_inset_top in
  let rgt := Py.int (PrimFloat.mul (Py.float_of_int (col_i + 1)) col_width) - h_inset in
  let bottom :=
    Py.int (PrimFloat.add (PrimFloat.mul (Py.float_of_int row_i) row_height)
                          monster_height) in
  (lft, top, rgt, bottom).

(** ** The output directory *)

Inductive FileData : Type :=
| PNG (img : Image)
| Text (content : string).

Inductive Entry : Type :=
| File (data : FileData)
| Subdirectory.

(** What [main] sees of the file system: the sheets that can be opened and
    decoded under [IMAGE_DIR], by file name, and the listing of
    [OUTPUT_DIR] (or [None] when it does not exist).  Saving a file into
    the output directory is taken to succeed. *)
Record FS : Type := mkFS {
  image_dir : gmap string Image;
  output_dir : option (gmap string Entry)
}.

(** [os.remove] refuses a directory. *)
Definition os_remove (name : string) (dir : gmap string Entry)
  : result (gmap string Entry) :=
  match dir !! name with
  | Some (File _) => Ok (delete name dir)
  | Some Subdirectory => Raise (OSError "Is a directory")
  | None => Raise (OSError "No such file or directory")
  end.

(** [os.listdir] *)
Definition os_listdir (dir : gmap string Entry) : list string :=
  (map_to_list dir).*1.

(** [l[i]] *)
Definition index {T : Type} (l : list T) (i : nat) : result T :=
  match l !! i with
  | Some x => Ok x
  | None => Raise (IndexError "list index out of range")
  end.

(** [Image.open(path).convert('RGBA')] *)
Definition Image_open (dir : gmap string Image) (name : string) : result Image :=
  match dir !! name with
  | Some img => Ok (convert_RGBA img)
  | None => Raise (OSError "cannot open image file")
  end.

(** A [for] loop whose body may raise. *)
Fixpoint for_each {T S : Type} (items : list T) (body : T -> S -> result S)
  (s : S) : result S :=
  match items with
  | [] => Ok s
  | x :: rest => do s' <- body x s ;; for_each rest body s'
  end.

Section Pipeline.

(** The Lanczos resampling kernel of Pillow is taken as given:
    [lanczos src w h x y] is the pixel at [(x, y)] of [src] resampled to
    [w] by [h]. *)
Variable lanczos : Image -> nat -> nat -> nat -> nat -> Pixel.

(** The C library's [pow], behind Python's [**] on floats. *)
Variable float_pow : float -> float -> float.

(** [img.resize((w, h), Image.LANCZOS)]: an unchanged size returns a
    copy; a size below 1 in either direction is refused. *)
Definition Image_resize (img : Image) (w h : Z) : result Image :=
  if (Z.of_nat (width img) =? w) && (Z.of_nat (height img) =? h) then Ok img
  else if (w <? 1) || (h <? 1) then
    Raise (ValueError "height and width must be > 0")
  else
    Ok (mkImage (mode img) (Z.to_nat w) (Z.to_nat h)
                (lanczos img (Z.to_nat w) (Z.to_nat h))).

(** The scaled size computed by [crop_and_center] for a [w] by [h]
    content: [ratio = min(max_dim / w, max_dim / h)],
    [new_w = int(w * ratio)], [new_h = int(h * ratio)]. *)
Definition scaled_size (target_size w h : Z) : Z * Z :=
  let padding := 16 in
  let max_dim := target_size - padding * 2 in
  let ratio := Py.fmin (Py.truediv max_dim w) (Py.truediv max_dim h) in
  (Py.int (PrimFloat.mul (Py.float_of_int w) ratio),
   Py.int (PrimFloat.mul (Py.float_of_int h) ratio)).

Definition crop_and_center (cell_img : Image) (target_size : nat)
  : result Image :=
  let cleaned := remove_checkerboard_bg cell_img in
  do cropped <- auto_crop_alpha cleaned ;;
  let w := width cropped in
  let h := height cropped in
  if Nat.eqb w 0 || Nat.eqb h 0 then
    Ok (Image_new target_size target_size)
  else
    let '(new_w, new_h) :=
      scaled_size (Z.of_nat target_size) (Z.of_nat w) (Z.of_nat h) in
    do resized <- Image_resize cropped new_w new_h ;;
    let result := Image_new target_size target_size in
    let paste_x := (Z.of_nat target_size - new_w) / 2 in
    let paste_y := (Z.of_nat target_size - new_h) / 2 in
    Ok (Image_paste result resized paste_x paste_y resized).

(** *** Mystery icon *)

Definition question_mark : list string := [
  "  XXXXX  ";
  " XX   XX ";
  "XX    XX ";
  "      XX ";
  "     XX  ";
  "    XX   ";
  "   XX    ";
  "   XX    ";
  "         ";
  "   XX    ";
  "   XX    "
]%string.

(** The rounded-square gradient drawn by the first pair of loops; the
    hexadecimal literal is the binary64 value of [0.2]. *)
Definition mystery_background (x y : Z) : Pixel :=
  let cx := Z.abs (x - 128) in
  let cy := Z.abs (y - 128) in
  if (110 <? cx) || (110 <? cy) then transparent
  else
    let corner_dist := Z.max 0 (cx - 90) ^ 2 + Z.max 0 (cy - 90) ^ 2 in
    if 400 <? corner_dist then transparent
    else
      let dist_from_center :=
        float_pow (Py.float_of_int ((x - 128) ^ 2 + (y - 128) ^ 2)) 0.5%float in
      let brightness :=
        Z.max 30 (Py.int (PrimFloat.sub (Py.float_of_int 60)
                            (PrimFloat.mul dist_from_center 0x1.999999999999ap-3%float))) in
      rgba brightness brightness (brightness + 20) 200.

Definition glyph_marked (row_i col_i : nat) : bool :=
  match question_mark !! row_i with
  | Some row =>
      match String.get col_i row with
      | Some ch => Ascii.eqb ch "X"%char
      | None => false
      end
  | None => false
  end.

(** The pixel left at [(x, y)] once the glyph blocks have been drawn
    over the background. *)
Definition mystery_pixel (x y : Z) : Pixel :=
  let scale := 6 in
  let row0 := default EmptyString (question_mark !! 0%nat) in
  let start_x := 128 - (Z.of_nat (String.length row0) * scale) / 2 in
  let start_y := 128 - (Z.of_nat (length question_mark) * scale) / 2 in
  let dx := x - start_x in
  let dy := y - start_y in
  if (0 <=? dx) && (0 <=? dy) &&
     glyph_marked (Z.to_nat (dy / scale)) (Z.to_nat (dx / scale)) &&
     (0 <=? x) && (x <? 256) && (0 <=? y) && (y <? 256)
  then rgba 180 160 220 255
  else mystery_background x y.

Definition generate_mystery_image : Image :=
  mkImage M_RGBA 256 256
          (fun x y => mystery_pixel (Z.of_nat x) (Z.of_nat y)).

(** *** main *)

(** The numbers [main] prints at the end. *)
Record Summary : Type := mkSummary {
  total_cropped : Z;
  egg_count : Z;
  total_files : Z
}.

(** The state threaded through the loops of [main]: the listing of the
    output directory and a running counter. *)
Definition LoopState : Type := (gmap string Entry * Z)%type.

(** Clean output directory *)
Definition clean_output_dir (out : option (gmap string Entry))
  : result (gmap string Entry) :=
  match out with
  | Some dir => for_each (os_listdir dir) os_remove dir
  | None => Ok ∅
  end.

(** Body of the loop over [col_i]. *)
Definition save_cell (img : Image) (sp : string) (row_i col_i : nat)
  (st : LoopState) : result LoopState :=
  let '(out, count) := st in
  do cell <- Image_crop img
               (cell_bounds (Z.of_nat (width img)) (Z.of_nat (height img))
                            (Z.of_nat row_i) (Z.of_nat col_i)) ;;
  do result <- crop_and_center cell 256 ;;
  do suffix <- index COL_SUFFIXES col_i ;;
  let out_name := String.concat "" [sp; suffix; ".png"]%string in
  Ok (<[out_name := File (PNG result)]> out, count + 1).

(** Body of the loop over [row_i]. *)
Definition slice_row (img : Image) (sheet_info : Sheet) (row_i : nat)
  (st : LoopState) : result LoopState :=
  do sp <- index (species sheet_info) row_i ;;
  for_each (seq 0 7) (save_cell img sp row_i) st.

(** Body of the loop over [SHEETS]. *)
Definition slice_sheet (sheets : gmap string Image) (sheet_info : Sheet)
  (st : LoopState) : result LoopState :=
  do img <- Image_open sheets (file sheet_info) ;;
  for_each (seq 0 4) (slice_row img sheet_info) st.

(** Body of the loop over [EGG_COLORS.items()]. *)
Definition write_egg (item : string * Colors) (st : LoopState)
  : result LoopState :=
  let '(out, count) := st in
  let '(sp, colors) := item in
  let svg_content := generate_egg_svg sp colors in
  let svg_name := String.concat "" [sp; "-1.svg"]%string in
  Ok (<[svg_name := File (Text svg_content)]> out, count + 1).

Definition main (fs : FS) : result (FS * Summary) :=
  do out <- clean_output_dir (output_dir fs) ;;
  do sliced <- for_each SHEETS (slice_sheet (image_dir fs)) (out, 0) ;;
  let '(out, total_cropped) := sliced in
  do egged <- for_each EGG_COLORS write_egg (out, 0) ;;
  let '(out, egg_count) := egged in
  let mystery := generate_mystery_image in
  let out := <["mystery-evolution.png"%string := File (PNG mystery)]> out in
  let total_files := Z.of_nat (size out) in
  Ok (mkFS (image_dir fs) (Some out),
      mkSummary total_cropped egg_count total_files).

End Pipeline.

(** ** Vocabulary of the specification *)

(** Mean of the three colour channels, as a rational. *)
Definition mean_brightness (p : Pixel) : Q :=
  (inject_Z (chan (R p) + chan (G p) + chan (B p)) / inject_Z 3)%Q.

(** A pixel the specification calls gray: every pairwise channel
    difference is below 20 and the mean brightness is above 180. *)
Definition gray_pixel (p : Pixel) : Prop :=
  (Z.abs (chan (R p) - chan (G p)) < 20 /\
   Z.abs (chan (G p) - chan (B p)) < 20 /\
   Z.abs (chan (R p) - chan (B p)) < 20) /\
  (inject_Z 180 < mean_brightness p)%Q.

(** A pixel that is not gray, in the specification's words: some pairwise
    difference reaches 20, or the mean brightness is at most 180. *)
Definition colored_pixel (p : Pixel) : Prop :=
  (20 <= Z.abs (chan (R p) - chan (G p)) \/
   20 <= Z.abs (chan (G p) - chan (B p)) \/
   20 <= Z.abs (chan (R p) - chan (B p))) \/
  (mean_brightness p <= inject_Z 180)%Q.

(** Every pixel of the image has alpha 0. *)
Definition fully_transparent (img : Image) : Prop :=
  forall x y, (x < width img)%nat -> (y < height img)%nat ->
              A (getpixel img x y) = Byte.x00.

(** A kernel that resamples a fully transparent image to transparent
    pixels, as premultiplied-alpha resampling does. *)
Definition keeps_transparency
  (lanczos : Image -> nat -> nat -> nat -> nat -> Pixel) : Prop :=
  forall src w h x y, fully_transparent src ->
                      A (lanczos src w h x y) = Byte.x00.

(** The crop step as the specification words it for an image without a
    visible pixel: the result is a fully transparent canvas of the target
    size. *)
Definition crop_step_gives_canvas (img : Image) (target_size : nat) : Prop :=
  exists r, auto_crop_alpha img = Ok r /\
            width r = target_size /\ height r = target_size /\
            fully_transparent r.

(** A rational truncated toward zero to a whole number, as [int(x)]
    truncates. *)
Definition Qtrunc (q : Q) : Z := Z.quot (Qnum q) (Z.pos (Qden q)).

(** The rectangle of row [r], column [c] before any inset, in the
    specification's terms and in exact arithmetic: content width =
    [W - 316], column width = content width / 7, row height = [H / 4],
    monster row height = row height - 120; columns
    [c * col_width, (c + 1) * col_width], rows
    [r * row_height, r * row_height + monster_height]. *)
Definition span_rect (img_w img_h r c : Z) : Q * Q * Q * Q :=
  let content_width := inject_Z (img_w - 316) in
  let col_width := (content_width / inject_Z 7)%Q in
  let row_height := (inject_Z img_h / inject_Z 4)%Q in
  let monster_height := (row_height - inject_Z 120)%Q in
  ((inject_Z c * col_width)%Q,
   (inject_Z r * row_height)%Q,
   (inject_Z (c + 1) * col_width)%Q,
   (inject_Z r * row_height + monster_height)%Q).


(** A rectangle, its edges taken as whole pixels, inset horizontally on
    both sides and vertically at the top edge only. *)
Definition inset_rect_top (h_margin v_margin : Z) (rect : Q * Q * Q * Q)
  : Box :=
  let '(x0, y0, x1, y1) := rect in
  (Qtrunc x0 + h_margin, Qtrunc y0 + v_margin, Qtrunc x1 - h_margin,
   Qtrunc y1).

(** The binary64 product [7 * (content_width / 7)] that gives the right
    edge of the last column comes out as the content width itself. *)
Definition last_edge_exact (img_w : Z) : Prop :=
  Py.int (PrimFloat.mul (Py.float_of_int 7) (Py.truediv (img_w - 316) 7))
  = img_w - 316.

(** The species named by the sheet descriptors, sheet by sheet. *)
Definition sheet_species : list string := flat_map species SHEETS.

(** The keys of the palette table. *)
Definition palette_species : list string := EGG_COLORS.*1.

Definition png_name (sp suffix : string) : string :=
  String.concat "" [sp; suffix; ".png"]%string.

Definition egg_name (sp : string) : string :=
  String.concat "" [sp; "-1.svg"]%string.

(** One PNG name per (species, column suffix) pair. *)
Definition expected_pngs : list string :=
  flat_map (fun sp => map (png_name sp) COL_SUFFIXES) sheet_species.

(** One SVG name per palette entry. *)
Definition expected_svgs : list string := map egg_name palette_species.

(** Everything a successful run leaves in the output directory. *)
Definition expected_files : list string :=
  (expected_pngs ++ expected_svgs ++ ["mystery-evolution.png"%string])%list.

(** The names written by the loop bodies of [main], as the loops index
    the tables. *)
Definition cell_names (sp : string) (col_i : nat) : list string :=
  match COL_SUFFIXES !! col_i with
  | Some suffix => [png_name sp suffix]
  | None => []
  end.

Definition row_names (sheet_info : Sheet) (row_i : nat) : list string :=
  match species sheet_info !! row_i with
  | Some sp => flat_map (cell_names sp) (seq 0 7)
  | None => []
  end.

Definition sheet_names (sheet_info : Sheet) : list string :=
  flat_map (row_names sheet_info) (seq 0 4).

(** A loop body that, when it returns, has added exactly [names] to the
    directory listing and [length names] to the counter. *)
Definition writes (names : list string)
  (body : gmap string Entry * Z -> result (gmap string Entry * Z)) : Prop :=
  forall s s', body s = Ok s' ->
    dom s'.1 = dom s.1 ∪ list_to_set names /\
    s'.2 = s.2 + Z.of_nat (length names).

(** The gradient element the egg of a species with spot colour [c0],
    primary colour [c1] and secondary colour [c2] has to contain; the text
    is cut at its double quotes. *)
Definition egg_grad_element (c0 c1 c2 : string) : string :=
  String.concat Svg.dq [
    "<radialGradient id="; "egg-grad"; " cx="; "40%"; " cy="; "35%";
    " r="; "60%";
    String.concat "" [">"; Svg.nl; "      <stop offset="]; "0%";
    " stop-color="; c0;
    String.concat "" ["/>"; Svg.nl; "      <stop offset="]; "60%";
    " stop-color="; c1;
    String.concat "" ["/>"; Svg.nl; "      <stop offset="]; "100%";
    " stop-color="; c2;
    String.concat "" ["/>"; Svg.nl; "    </radialGradient>"]
  ]%string.

(** A kernel that resamples a fully transparent, non-empty image to
    transparent pixels at every position of the resampled image. *)
Definition keeps_transparency_within
  (lanczos : Image -> nat -> nat -> nat -> nat -> Pixel) : Prop :=
  forall src w h x y,
    (0 < width src)%nat -> (0 < height src)%nat ->
    (x < w)%nat -> (y < h)%nat -> fully_transparent src ->
    A (lanczos src w h x y) = Byte.x00.

(** An image in which every pixel is gray or already transparent. *)
Definition only_background (img : Image) : Prop :=
  forall x y, (x < width img)%nat -> (y < height img)%nat ->
              gray_pixel (getpixel img x y) \/
              A (getpixel img x y) = Byte.x00.

(** [int(f)] computed with shifts; it equals [Py.int] and evaluates much
    faster, which the tables below rely on. *)
Definition int_by_shift (f : float) : Z :=
  match Prim2SF f with
  | S754_finite s m e =>
      let v := if 0 <=? e then Z.shiftl (Z.pos m) e
               else Z.shiftr (Z.pos m) (- e) in
      if s then - v else v
  | _ => 0
  end.

(** [scaled_size] and [cell_bounds] with [int] computed by shifts. *)
Definition scaled_size_by_shift (target_size w h : Z) : Z * Z :=
  let padding := 16 in
  let max_dim := target_size - padding * 2 in
  let ratio := Py.fmin (Py.truediv max_dim w) (Py.truediv max_dim h) in
  (int_by_shift (PrimFloat.mul (Py.float_of_int w) ratio),
   int_by_shift (PrimFloat.mul (Py.float_of_int h) ratio)).

Definition cell_bounds_by_shift (img_w img_h row_i col_i : Z) : Box :=
  let num_rows := 4 in
  let num_cols := 7 in
  let content_width := img_w - 316 in
  let row_height := Py.truediv img_h num_rows in
  let col_width := Py.truediv content_width num_cols in
  let monster_height := PrimFloat.sub row_height (Py.float_of_int 120) in
  let h_inset := 30 in
  let v_inset_top := 12 in
  let lft :=
    int_by_shift (PrimFloat.mul (Py.float_of_int col_i) col_width) + h_inset in
  let top :=
    int_by_shift (PrimFloat.mul (Py.float_of_int row_i) row_height)
    + v_inset_top in
  let rgt :=
    int_by_shift (PrimFloat.mul (Py.float_of_int (col_i + 1)) col_width)
    - h_inset in
  let bottom :=
    int_by_shift
      (PrimFloat.add (PrimFloat.mul (Py.float_of_int row_i) row_height)
                     monster_height) in
  (lft, top, rgt, bottom).

(** The integers [lo], [lo + 1], ..., [n] of them. *)
Fixpoint zrange (lo : Z) (n : nat) : list Z :=
  match n with
  | O => []
  | S n' => lo :: zrange (lo + 1) n'
  end.

(** The scaled size of a [w] by [h] content stays within the 224 by 224
    area that the padding of 16 leaves on a 256 canvas, its longer side is
    223 or more, and the longer side of the content stays the longer
    side. *)
Definition scaled_fits_by_shift (w h : Z) : bool :=
  let '(new_w, new_h) := scaled_size_by_shift 256 w h in
  (0 <=? new_w) && (new_w <=? 224) && (0 <=? new_h) && (new_h <=? 224) &&
  (223 <=? Z.max new_w new_h) &&
  (if h <=? w then new_h <=? new_w else new_w <=? new_h).

(** The horizontal edges of column [col_i] on a sheet [img_w] wide: at
    least 30 from the left, not inverted, and left of the label margin
    less the inset. *)
Definition col_edges_ok_by_shift (img_w col_i : Z) : bool :=
  let '(lft, _, rgt, _) := cell_bounds_by_shift img_w 0 0 col_i in
  (30 <=? lft) && (lft <? rgt) && (rgt <=? img_w - 346).

(** The vertical edges of row [row_i] on a sheet [img_h] high: not
    inverted, inside the sheet, and 132 above the top of the next row. *)
Definition row_edges_ok_by_shift (img_h row_i : Z) : bool :=
  let '(_, top, _, bottom) := cell_bounds_by_shift 0 img_h row_i 0 in
  let '(_, next_top, _, _) := cell_bounds_by_shift 0 img_h (row_i + 1) 0 in
  (12 <=? top) && (top <? bottom) && (bottom <=? img_h - 120) &&
  (next_top =? bottom + 132).



(** A directory entry that is a PNG file holding a 256 by 256 RGBA
    image. *)
Definition png_ok (e : Entry) : Prop :=
  match e with
  | File (PNG img) =>
      mode img = M_RGBA /\ width img = 256%nat /\ height img = 256%nat
  | _ => False
  end.

(** A directory entry as a run leaves it: a file, and when it is a PNG,
    one that holds a 256 by 256 RGBA image. *)
Definition entry_ok (e : Entry) : Prop :=
  match e with
  | File (PNG img) =>
      mode img = M_RGBA /\ width img = 256%nat /\ height img = 256%nat
  | File (Text _) => True
  | Subdirectory => False
  end.

(** What every egg document starts with, up to the gradient element. *)
Definition egg_prefix : string :=
  Eval vm_compute in
    substring 0 99 (generate_egg_svg "" (mkColors "" "" "")).

(** ** Sample inputs *)

(** A nearest-neighbour kernel, to run the pipeline on examples. *)
Definition nearest (src : Image) (w h x y : nat) : Pixel :=
  getpixel src (x * width src / w)%nat (y * height src / h)%nat.

(** A power function that serves the only exponent the script uses. *)
Definition sqrt_pow (x e : float) : float := PrimFloat.sqrt x.

Definition solid (m : Mode) (w h : nat) (p : Pixel) : Image :=
  mkImage m w h (fun _ _ => p).

Definition thin_red : Image := solid M_RGBA 448 1 (rgba 255 0 0 255).
Definition thin_clear : Image := solid M_RGBA 448 1 transparent.
Definition clear_2x2 : Image := solid M_RGBA 2 2 transparent.
Definition gray_dot : Image := solid M_RGBA 1 1 (rgba 200 200 205 255).
Definition red_dot : Image := solid M_RGBA 1 1 (rgba 200 50 50 255).

(** Five small opaque sheets under the names of [SHEETS], and no output
    directory yet. *)
Definition small_sheet : Image := solid M_RGB 750 536 (rgba 255 0 0 255).
Definition sample_fs : FS :=
  mkFS (list_to_map (map (fun sh => (file sh, small_sheet)) SHEETS)) None.

(** The float comparison of [is_gray] against the integer comparison it
    stands for, at one channel sum. *)
Definition brightness_agrees (n : nat) : bool :=
  Bool.eqb
    (PrimFloat.ltb 180%float
       (PrimFloat.div (Py.float_of_int (Z.of_nat n)) 3%float))
    (540 <? Z.of_nat n).

(** The same sheets, with a stale file left in the output directory. *)
Definition stale_fs : FS :=
  mkFS (image_dir sample_fs)
       (Some {[ "old.png"%string := File (Text "stale"%string) ]}).

(** No sheet at all, and no output directory. *)
Definition empty_fs : FS := mkFS ∅ None.

(** An output directory that holds a subdirectory. *)
Definition blocked_fs : FS :=
  mkFS ∅ (Some {[ "backup"%string := Subdirectory ]}).

(** * Properties *)

(** ** Channels *)

Lemma chan_range (b : byte) : 0 <= chan b <= 255.
Proof.
  unfold chan. pose proof (Byte.to_N_bounded b) as Hb. lia.
Qed.

Lemma chan_u8 (z : Z) : 0 <= z <= 255 -> chan (u8 z) = z.
Proof.
  intros Hz. unfold chan, u8.
  rewrite Z.mod_small by lia.
  destruct (Byte.of_N (Z.to_N z)) as [b|] eqn:E.
  - apply Byte.to_of_N in E. lia.
  - apply Byte.of_N_None_iff in E. lia.
Qed.

Lemma chan_x00 : chan Byte.x00 = 0.
Proof. reflexivity. Qed.

Lemma chan_zero_iff (b : byte) : chan b = 0 <-> b = Byte.x00.
Proof.
  split; [|intros ->; reflexivity].
  intros H. unfold chan in H.
  assert (Hn : Byte.to_N b = Byte.to_N Byte.x00) by (simpl; lia).
  pose proof (Byte.of_to_N b) as E1. rewrite Hn, Byte.of_to_N in E1.
  congruence.
Qed.

(** ** The gray classification *)

Lemma brightness_table : forallb brightness_agrees (seq 0 766) = true.
Proof. vm_compute. reflexivity. Qed.

Lemma brightness_gt_180 (p : Pixel) :
  PrimFloat.ltb 180%float (brightness p)
  = (540 <? chan (R p) + chan (G p) + chan (B p)).
Proof.
  unfold brightness.
  pose proof (chan_range (R p)). pose proof (chan_range (G p)).
  pose proof (chan_range (B p)).
  set (s := chan (R p) + chan (G p) + chan (B p)) in *.
  assert (Hin : In (Z.to_nat s) (seq 0 766)) by (apply in_seq; lia).
  pose proof (proj1 (forallb_forall _ _) brightness_table _ Hin) as Ht.
  unfold brightness_agrees in Ht. rewrite Z2Nat.id in Ht by lia.
  apply Bool.eqb_prop in Ht. exact Ht.
Qed.

Lemma mean_gt_180 (p : Pixel) :
  (inject_Z 180 < mean_brightness p)%Q
  <-> 540 < chan (R p) + chan (G p) + chan (B p).
Proof.
  unfold mean_brightness, Qlt, Qdiv, Qmult, Qinv, inject_Z. simpl. lia.
Qed.

Lemma is_gray_true (p : Pixel) : is_gray p = true <-> gray_pixel p.
Proof.
  unfold is_gray, gray_pixel. rewrite brightness_gt_180, mean_gt_180.
  rewrite andb_true_iff, Z.ltb_lt, Z.ltb_lt. unfold max_diff. lia.
Qed.

Lemma is_gray_false (p : Pixel) : is_gray p = false <-> colored_pixel p.
Proof.
  rewrite <- not_true_iff_false, is_gray_true.
  unfold gray_pixel, colored_pixel. rewrite mean_gt_180.
  unfold Qle, mean_brightness, Qdiv, Qmult, Qinv, inject_Z. simpl. lia.
Qed.

Lemma is_gray_clear_gray (p : Pixel) : is_gray (clear_gray p) = is_gray p.
Proof. reflexivity. Qed.

Lemma clear_gray_idem (p : Pixel) : clear_gray (clear_gray p) = clear_gray p.
Proof.
  unfold clear_gray at 1 3. rewrite is_gray_clear_gray. simpl.
  destruct (is_gray p); reflexivity.
Qed.

Lemma remove_checkerboard_bg_pixel (img : Image) (x y : nat) :
  getpixel (remove_checkerboard_bg img) x y = clear_gray (getpixel img x y).
Proof.
  unfold remove_checkerboard_bg. destruct (Mode_eqb (mode img) M_RGBA); reflexivity.
Qed.

Lemma remove_checkerboard_bg_size (img : Image) :
  mode (remove_checkerboard_bg img) = M_RGBA /\
  width (remove_checkerboard_bg img) = width img /\
  height (remove_checkerboard_bg img) = height img.
Proof.
  unfold remove_checkerboard_bg. destruct (Mode_eqb (mode img) M_RGBA); auto.
Qed.

(** ** Checkerboard removal *)

(** C4: checkerboard removal forces a pixel's alpha to 0 exactly when the
    pixel is gray (all pairwise channel differences below 20 and mean
    brightness above 180): a gray pixel ends with alpha 0, a pixel whose
    alpha changed was gray, and a pixel that is not gray keeps its alpha.
    A pixel (200,200,205) is zeroed whatever its alpha, a pixel (200,50,50)
    keeps its alpha. *)
Theorem remove_checkerboard_bg_alpha (img : Image) (x y : nat) :
  let p := getpixel img x y in
  let q := getpixel (remove_checkerboard_bg img) x y in
  (gray_pixel p -> A q = Byte.x00) /\
  (A q <> A p -> gray_pixel p) /\
  (~ gray_pixel p -> A q = A p) /\
  (forall a, A (clear_gray (rgba 200 200 205 a)) = Byte.x00) /\
  (forall a, A (clear_gray (rgba 200 50 50 a)) = A (rgba 200 50 50 a)).
Proof.
  cbv zeta. rewrite remove_checkerboard_bg_pixel.
  set (p := getpixel img x y).
  assert (Hcase : (~ gray_pixel p -> A (clear_gray p) = A p) /\
                  (gray_pixel p -> A (clear_gray p) = Byte.x00)).
  { unfold clear_gray. simpl. destruct (is_gray p) eqn:E.
    - apply is_gray_true in E. split; [intros Hn; contradiction | reflexivity].
    - split; [reflexivity |].
      intros Hg. apply is_gray_true in Hg. congruence. }
  destruct Hcase as [Hkeep Hzero].
  split; [| split; [| split; [| split]]].
  - exact Hzero.
  - intros Hne. destruct (is_gray p) eqn:E.
    + apply is_gray_true. exact E.
    + exfalso. apply Hne. unfold clear_gray. simpl. rewrite E. reflexivity.
  - exact Hkeep.
  - intros a. reflexivity.
  - intros a. reflexivity.
Qed.

Lemma remove_checkerboard_bg_alpha_witness :
  gray_pixel (getpixel gray_dot 0 0) /\
  A (getpixel (remove_checkerboard_bg gray_dot) 0 0) = Byte.x00.
Proof.
  assert (Hg : gray_pixel (getpixel gray_dot 0 0)).
  { apply is_gray_true. vm_compute. reflexivity. }
  split.
  - exact Hg.
  - exact (proj1 (remove_checkerboard_bg_alpha gray_dot 0 0) Hg).
Defined.

(** C9: checkerboard removal changes nothing but alpha: size and mode
    (RGBA) are kept, the R, G and B values of every pixel are those of the
    input, and a pixel that is not gray (some pairwise difference at least
    20, or mean brightness at most 180) keeps its alpha as well. *)
Theorem remove_checkerboard_bg_frame (img : Image) (x y : nat) :
  let p := getpixel img x y in
  let q := getpixel (remove_checkerboard_bg img) x y in
  width (remove_checkerboard_bg img) = width img /\
  height (remove_checkerboard_bg img) = height img /\
  R q = R p /\ G q = G p /\ B q = B p /\
  (colored_pixel p -> A q = A p).
Proof.
  cbv zeta. rewrite remove_checkerboard_bg_pixel.
  destruct (remove_checkerboard_bg_size img) as (_ & Hw & Hh).
  split; [exact Hw |]. split; [exact Hh |].
  split; [reflexivity |]. split; [reflexivity |]. split; [reflexivity |].
  intros Hc. apply is_gray_false in Hc.
  unfold clear_gray. simpl. rewrite Hc. reflexivity.
Qed.

Lemma remove_checkerboard_bg_frame_witness :
  colored_pixel (getpixel red_dot 0 0) /\
  getpixel (remove_checkerboard_bg red_dot) 0 0 = rgba 200 50 50 255.
Proof.
  assert (Hc : colored_pixel (getpixel red_dot 0 0)).
  { apply is_gray_false. vm_compute. reflexivity. }
  split; [exact Hc |].
  pose proof (remove_checkerboard_bg_frame red_dot 0 0) as H.
  cbv zeta in H. destruct H as (_ & _ & Hr & Hg & Hb & Ha).
  specialize (Ha Hc).
  destruct (getpixel (remove_checkerboard_bg red_dot) 0 0) as [r g b a].
  simpl in *. subst. reflexivity.
Defined.

(** C10: checkerboard removal is idempotent: a second application returns
    the same image as the first (same mode, same size, same pixels), for
    an input of any mode. *)
Theorem remove_checkerboard_bg_idempotent (img : Image) :
  same_image (remove_checkerboard_bg (remove_checkerboard_bg img))
             (remove_checkerboard_bg img).
Proof.
  destruct (remove_checkerboard_bg_size (remove_checkerboard_bg img))
    as (Hm & Hw & Hh).
  destruct (remove_checkerboard_bg_size img) as (Hm' & _ & _).
  unfold same_image. split; [| split; [| split]].
  - congruence.
  - exact Hw.
  - exact Hh.
  - intros x y. rewrite !remove_checkerboard_bg_pixel. apply clear_gray_idem.
Qed.

(** ** Bounding box and crop step *)

Lemma filter_all_false {T : Type} (f : T -> bool) (l : list T) :
  (forall x, In x l -> f x = false) -> List.filter f l = [].
Proof.
  induction l as [|a l IH]; intros H; simpl.
  - reflexivity.
  - rewrite (H a) by (left; reflexivity).
    apply IH. intros x Hx. apply H. right. exact Hx.
Qed.

Lemma existsb_all_false {T : Type} (f : T -> bool) (l : list T) :
  (forall x, In x l -> f x = false) -> existsb f l = false.
Proof.
  induction l as [|a l IH]; intros H; simpl.
  - reflexivity.
  - rewrite (H a) by (left; reflexivity).
    apply IH. intros x Hx. apply H. right. exact Hx.
Qed.

Lemma visible_transparent (img : Image) (x y : nat) :
  A (getpixel img x y) = Byte.x00 -> visible img x y = false.
Proof. intros H. unfold visible. rewrite H. reflexivity. Qed.

Lemma getbbox_transparent (img : Image) :
  fully_transparent img -> getbbox img = None.
Proof.
  intros Ht. unfold getbbox.
  rewrite (filter_all_false (col_visible img)); [reflexivity |].
  intros x Hx. apply in_seq in Hx. unfold col_visible.
  apply existsb_all_false. intros y Hy. apply in_seq in Hy.
  apply visible_transparent. apply Ht; lia.
Qed.

Lemma auto_crop_alpha_transparent (img : Image) :
  fully_transparent img ->
  auto_crop_alpha img
  = Ok (if Mode_eqb (mode img) M_RGBA then img else convert_RGBA img).
Proof.
  intros Ht. unfold auto_crop_alpha.
  rewrite getbbox_transparent; [reflexivity |].
  destruct (Mode_eqb (mode img) M_RGBA); exact Ht.
Qed.

(** The bounding box of a visible pixel set is never inverted, so the crop
    step never raises. *)
Lemma last_in_or_default {T : Type} (l : list T) (d : T) :
  List.last l d = d \/ In (List.last l d) l.
Proof.
  induction l as [|a l IH]; [left; reflexivity |].
  destruct l as [|b l]; [right; left; reflexivity |].
  destruct IH as [Hd | Hin].
  - left. exact Hd.
  - right. right. exact Hin.
Qed.

Lemma filter_seq_first_le_last (f : nat -> bool) (a n x0 : nat)
  (xs : list nat) :
  List.filter f (seq a n) = x0 :: xs -> (x0 <= List.last xs x0)%nat.
Proof.
  revert a. induction n as [|n IH]; intros a Hf; simpl in Hf; [discriminate |].
  destruct (f a).
  - injection Hf as <- <-.
    destruct (last_in_or_default (List.filter f (seq (S a) n)) a)
      as [-> | Hin]; [lia |].
    apply filter_In in Hin. destruct Hin as [Hin _].
    apply in_seq in Hin. lia.
  - exact (IH _ Hf).
Qed.

Lemma auto_crop_alpha_never_raises (img : Image) :
  exists c, auto_crop_alpha img = Ok c.
Proof.
  unfold auto_crop_alpha.
  set (im := if Mode_eqb (mode img) M_RGBA then img else convert_RGBA img).
  unfold getbbox.
  destruct (List.filter (col_visible im) (seq 0 (width im)))
    as [|x0 xs] eqn:Hx; [eexists; reflexivity |].
  destruct (List.filter (row_visible im) (seq 0 (height im)))
    as [|y0 ys] eqn:Hy; [eexists; reflexivity |].
  apply filter_seq_first_le_last in Hx, Hy.
  unfold Image_crop.
  destruct (Z.ltb_spec (Z.of_nat (List.last xs x0) + 1) (Z.of_nat x0)); [lia |].
  destruct (Z.ltb_spec (Z.of_nat (List.last ys y0) + 1) (Z.of_nat y0)); [lia |].
  eexists; reflexivity.
Qed.

Lemma Mode_eqb_eq (a b : Mode) : Mode_eqb a b = true -> a = b.
Proof. destruct a, b; simpl; congruence. Qed.

Lemma fully_transparent_clear_2x2 : fully_transparent clear_2x2.
Proof. intros x y _ _. reflexivity. Qed.

(** C6, as stated, fails: the crop step does not turn every image without
    a visible pixel into a 256 by 256 canvas; a fully transparent 2 by 2
    image comes back 2 by 2. *)
Lemma auto_crop_alpha_not_canvas :
  ~ (forall img, fully_transparent img -> crop_step_gives_canvas img 256).
Proof.
  intros H.
  destruct (H clear_2x2 fully_transparent_clear_2x2) as (r & Hr & Hw & _).
  rewrite (auto_crop_alpha_transparent _ fully_transparent_clear_2x2) in Hr.
  simpl in Hr. injection Hr as <-. simpl in Hw. discriminate Hw.
Qed.

(** C6, amended: applied to an image without a visible pixel, the crop
    step raises nothing and returns that image itself, in RGBA mode, with
    its own size and pixels (hence still fully transparent); it does not
    produce a canvas of the target size. *)
Theorem auto_crop_alpha_keeps_transparent_image (img : Image) :
  fully_transparent img ->
  exists r, auto_crop_alpha img = Ok r /\
            mode r = M_RGBA /\
            width r = width img /\ height r = height img /\
            (forall x y, getpixel r x y = getpixel img x y) /\
            fully_transparent r.
Proof.
  intros Ht. eexists. split; [apply auto_crop_alpha_transparent; exact Ht |].
  destruct (Mode_eqb (mode img) M_RGBA) eqn:E.
  - apply Mode_eqb_eq in E. repeat (split; [try reflexivity; try assumption |]).
    exact Ht.
  - simpl. repeat (split; [reflexivity |]). exact Ht.
Qed.

Lemma auto_crop_alpha_keeps_transparent_image_witness :
  fully_transparent clear_2x2 /\
  exists r, auto_crop_alpha clear_2x2 = Ok r /\
            width r = 2%nat /\ height r = 2%nat /\ fully_transparent r.
Proof.
  split; [exact fully_transparent_clear_2x2 |].
  destruct (auto_crop_alpha_keeps_transparent_image
              clear_2x2 fully_transparent_clear_2x2)
    as (r & Hr & _ & Hw & Hh & _ & Ht).
  exists r. repeat (split; [assumption |]). exact Ht.
Defined.

(** ** Crop and center *)

Section PipelineFacts.

Variable lanczos : Image -> nat -> nat -> nat -> nat -> Pixel.

Lemma Image_resize_size (img r : Image) (w h : Z) :
  Image_resize lanczos img w h = Ok r ->
  Z.of_nat (width r) = w /\ Z.of_nat (height r) = h /\ mode r = mode img.
Proof.
  unfold Image_resize.
  destruct ((Z.of_nat (width img) =? w) && (Z.of_nat (height img) =? h)) eqn:E.
  - intros [= <-]. apply andb_true_iff in E. destruct E as [E1 E2].
    apply Z.eqb_eq in E1, E2. auto.
  - destruct ((w <? 1) || (h <? 1)) eqn:E'; [discriminate |].
    intros [= <-]. simpl. apply orb_false_iff in E'. destruct E' as [E1 E2].
    apply Z.ltb_ge in E1, E2. repeat split; lia.
Qed.

Lemma Image_resize_raises (img : Image) (w h : Z) :
  (w < 1 \/ h < 1) ->
  (Z.of_nat (width img) <> w \/ Z.of_nat (height img) <> h) ->
  Image_resize lanczos img w h
  = Raise (ValueError "height and width must be > 0").
Proof.
  intros Hsmall Hne. unfold Image_resize.
  destruct ((Z.of_nat (width img) =? w) && (Z.of_nat (height img) =? h)) eqn:E.
  - apply andb_true_iff in E. destruct E as [E1 E2].
    apply Z.eqb_eq in E1, E2. lia.
  - destruct ((w <? 1) || (h <? 1)) eqn:E'; [reflexivity |].
    apply orb_false_iff in E'. destruct E' as [E1 E2].
    apply Z.ltb_ge in E1, E2. lia.
Qed.

(** Whenever [crop_and_center] returns, the image is a square RGBA canvas
    of the target size. *)
Lemma crop_and_center_size (img r : Image) (n : nat) :
  crop_and_center lanczos img n = Ok r ->
  mode r = M_RGBA /\ width r = n /\ height r = n.
Proof.
  unfold crop_and_center.
  destruct (auto_crop_alpha (remove_checkerboard_bg img)) as [c|e];
    cbn [bind]; [| discriminate].
  destruct (Nat.eqb (width c) 0 || Nat.eqb (height c) 0).
  - intros [= <-]. auto.
  - destruct (scaled_size (Z.of_nat n) (Z.of_nat (width c))
                          (Z.of_nat (height c))) as [nw nh].
    destruct (Image_resize lanczos c nw nh) as [rz|e];
      cbn [bind]; [| discriminate].
    intros [= <-]. auto.
Qed.

(** [crop_and_center] returns exactly when the content is empty or both
    scaled dimensions are at least 1; otherwise the resize step raises. *)
Lemma crop_and_center_returns (img c : Image) (n : nat) :
  auto_crop_alpha (remove_checkerboard_bg img) = Ok c ->
  width c <> 0%nat -> height c <> 0%nat ->
  1 <= (scaled_size (Z.of_nat n) (Z.of_nat (width c)) (Z.of_nat (height c))).1 ->
  1 <= (scaled_size (Z.of_nat n) (Z.of_nat (width c)) (Z.of_nat (height c))).2 ->
  exists r, crop_and_center lanczos img n = Ok r.
Proof.
  intros Hc Hw Hh H1 H2. unfold crop_and_center. rewrite Hc. cbn [bind].
  apply Nat.eqb_neq in Hw, Hh. rewrite Hw, Hh. cbn [orb].
  destruct (scaled_size (Z.of_nat n) (Z.of_nat (width c))
                        (Z.of_nat (height c))) as [nw nh].
  cbn [fst snd] in H1, H2. unfold Image_resize.
  destruct ((Z.of_nat (width c) =? nw) && (Z.of_nat (height c) =? nh));
    [eexists; reflexivity |].
  destruct (Z.ltb_spec nw 1); [lia |].
  destruct (Z.ltb_spec nh 1); [lia |].
  eexists; reflexivity.
Qed.

Lemma crop_and_center_raises (img c : Image) (n : nat) :
  auto_crop_alpha (remove_checkerboard_bg img) = Ok c ->
  width c <> 0%nat -> height c <> 0%nat ->
  ((scaled_size (Z.of_nat n) (Z.of_nat (width c)) (Z.of_nat (height c))).1 < 1 \/
   (scaled_size (Z.of_nat n) (Z.of_nat (width c)) (Z.of_nat (height c))).2 < 1) ->
  crop_and_center lanczos img n
  = Raise (ValueError "height and width must be > 0").
Proof.
  intros Hc Hw Hh Hsmall. unfold crop_and_center. rewrite Hc. cbn [bind].
  pose proof Hw as Hw'. pose proof Hh as Hh'.
  apply Nat.eqb_neq in Hw', Hh'. rewrite Hw', Hh'. cbn [orb].
  destruct (scaled_size (Z.of_nat n) (Z.of_nat (width c))
                        (Z.of_nat (height c))) as [nw nh].
  cbn [fst snd] in Hsmall.
  rewrite Image_resize_raises; [reflexivity | exact Hsmall | lia].
Qed.

Lemma blend_pixel_transparent (inp msk : Pixel) :
  A msk = Byte.x00 -> blend_pixel transparent inp msk = transparent.
Proof.
  intros Hm. unfold blend_pixel. rewrite Hm.
  change (chan Byte.x00) with 0.
  change (chan (R transparent)) with 0. change (chan (G transparent)) with 0.
  change (chan (B transparent)) with 0. change (chan (A transparent)) with 0.
  unfold blend. rewrite !Z.mul_0_r. reflexivity.
Qed.

(** On a fully transparent input, whenever [crop_and_center] returns, the
    canvas it returns is fully transparent. *)
Lemma crop_and_center_transparent (img r : Image) (n : nat) :
  keeps_transparency lanczos ->
  fully_transparent img ->
  crop_and_center lanczos img n = Ok r ->
  fully_transparent r /\ mode r = M_RGBA /\ width r = n /\ height r = n.
Proof.
  intros Hk Ht Hrun. split; [| exact (crop_and_center_size _ _ _ Hrun)].
  assert (Htc : fully_transparent (remove_checkerboard_bg img)).
  { destruct (remove_checkerboard_bg_size img) as (_ & Hw & Hh).
    intros x y Hx Hy. rewrite remove_checkerboard_bg_pixel.
    unfold clear_gray. simpl. destruct (is_gray _); [reflexivity |].
    apply Ht; lia. }
  unfold crop_and_center in Hrun.
  rewrite (auto_crop_alpha_transparent _ Htc) in Hrun. cbn [bind] in Hrun.
  destruct (remove_checkerboard_bg_size img) as (Hm & _ & _).
  rewrite Hm in Hrun. cbn [Mode_eqb] in Hrun.
  set (c := remove_checkerboard_bg img) in *.
  destruct (Nat.eqb (width c) 0 || Nat.eqb (height c) 0).
  - injection Hrun as <-. intros x y _ _. reflexivity.
  - destruct (scaled_size (Z.of_nat n) (Z.of_nat (width c))
                          (Z.of_nat (height c))) as [nw nh].
    destruct (Image_resize lanczos c nw nh) as [rz|e] eqn:Hrz;
      cbn [bind] in Hrun; [| discriminate].
    injection Hrun as <-.
    assert (Hz : fully_transparent rz).
    { unfold Image_resize in Hrz.
      destruct ((Z.of_nat (width c) =? nw) && (Z.of_nat (height c) =? nh)).
      - injection Hrz as <-. exact Htc.
      - destruct ((nw <? 1) || (nh <? 1)); [discriminate |].
        injection Hrz as <-. intros x y _ _. simpl. apply Hk. exact Htc. }
    intros x y _ _. cbn [Image_paste getpixel Image_new].
    destruct ((0 <=? Z.of_nat x - (Z.of_nat n - nw) / 2) &&
              (Z.of_nat x - (Z.of_nat n - nw) / 2 <? Z.of_nat (width rz)) &&
              (0 <=? Z.of_nat y - (Z.of_nat n - nh) / 2) &&
              (Z.of_nat y - (Z.of_nat n - nh) / 2 <? Z.of_nat (height rz)))
      eqn:Hin; [| reflexivity].
    rewrite blend_pixel_transparent; [reflexivity |].
    apply andb_true_iff in Hin. destruct Hin as [Hin Hy1].
    apply andb_true_iff in Hin. destruct Hin as [Hin Hy0].
    apply andb_true_iff in Hin. destruct Hin as [Hx0 Hx1].
    apply Hz; lia.
Qed.

End PipelineFacts.

(** C1 (code defect): [crop_and_center] does not return for every input.
    On a 448 by 1 image of opaque red pixels the content keeps its size,
    the scale factor is 0.5, the scaled height [int(1 * 0.5)] is 0 and the
    resize step raises, whatever the resampling kernel. *)
Theorem crop_and_center_raises_on_thin_content :
  forall lanczos,
    scaled_size 256 448 1 = (224, 0) /\
    crop_and_center lanczos thin_red 256
    = Raise (ValueError "height and width must be > 0").
Proof.
  intros lanczos. split; vm_compute; reflexivity.
Qed.

Lemma fully_transparent_thin_clear : fully_transparent thin_clear.
Proof. intros x y _ _. reflexivity. Qed.

(** C3 (code defect): on the fully transparent 448 by 1 image the
    bounding box is empty, the crop step hands the image back with its own
    size, and the resize step raises on the scaled height 0, whatever the
    resampling kernel. *)
Theorem crop_and_center_raises_on_thin_transparent :
  forall lanczos,
    fully_transparent thin_clear /\
    getbbox (remove_checkerboard_bg thin_clear) = None /\
    crop_and_center lanczos thin_clear 256
    = Raise (ValueError "height and width must be > 0").
Proof.
  intros lanczos. split; [exact fully_transparent_thin_clear |].
  split; vm_compute; reflexivity.
Qed.

(** ** Sheet geometry *)

(** On a sheet of the expected size the rectangles are these whole
    numbers. *)
Lemma cell_bounds_expected_sheet (r c : nat) :
  (r < 4)%nat -> (c < 7)%nat ->
  cell_bounds 2816 1536 (Z.of_nat r) (Z.of_nat c)
  = (2500 * Z.of_nat c / 7 + 30, 384 * Z.of_nat r + 12,
     2500 * (Z.of_nat c + 1) / 7 - 30, 384 * Z.of_nat r + 264).
Proof.
  intros Hr Hc.
  assert (Hr' : (r = 0 \/ r = 1 \/ r = 2 \/ r = 3)%nat) by lia.
  assert (Hc' : (c = 0 \/ c = 1 \/ c = 2 \/ c = 3 \/
                 c = 4 \/ c = 5 \/ c = 6)%nat) by lia.
  destruct Hr' as [-> | [-> | [-> | ->]]];
    destruct Hc' as [-> | [-> | [-> | [-> | [-> | [-> | ->]]]]]];
    vm_compute; reflexivity.
Qed.

(** ** Egg icons *)

(** C8: the palette of "spirit_dog" is primary #C8B896, secondary #A08868,
    spot #E8D8C0, and the SVG document generated for it contains the
    radial gradient "egg-grad" with the stops #E8D8C0 at 0%, #C8B896 at 60%
    and #A08868 at 100%, in that order. *)
Theorem generate_egg_svg_spirit_dog :
  let colors := mkColors "#C8B896" "#A08868" "#E8D8C0" in
  In ("spirit_dog"%string, colors) EGG_COLORS /\
  exists before after : string,
    generate_egg_svg "spirit_dog" colors
    = String.concat ""
        [before; egg_grad_element "#E8D8C0" "#C8B896" "#A08868"; after].
Proof.
  cbv zeta. split; [left; reflexivity |].
  set (svg := generate_egg_svg "spirit_dog"
                (mkColors "#C8B896" "#A08868" "#E8D8C0")).
  set (elt := egg_grad_element "#E8D8C0" "#C8B896" "#A08868").
  exists (substring 0 99 svg),
         (substring (99 + String.length elt) (String.length svg) svg).
  vm_compute. reflexivity.
Qed.

(** ** Loops over the output directory *)

Lemma writes_for_each {T : Type} (name_of : T -> list string)
  (items : list T) (body : T -> LoopState -> result LoopState) :
  (forall x, In x items -> writes (name_of x) (body x)) ->
  writes (flat_map name_of items) (for_each items body).
Proof.
  induction items as [|x rest IH]; intros Hbody s s' Hrun;
    cbn [for_each flat_map] in *.
  - injection Hrun as <-. rewrite list_to_set_nil, (right_id_L ∅ (∪)).
    split; [reflexivity | simpl; lia].
  - destruct (body x s) as [s1|e] eqn:Hx; cbn [bind] in Hrun; [| discriminate].
    destruct (Hbody x (or_introl eq_refl) s s1 Hx) as [Hd1 Hn1].
    destruct (IH (fun y Hy => Hbody y (or_intror Hy)) s1 s' Hrun) as [Hd Hn].
    rewrite Hd, Hd1, Hn, Hn1, list_to_set_app_L, length_app.
    split; [symmetry; apply (assoc_L (∪)) | lia].
Qed.

Section MainFacts.

Variable lanczos : Image -> nat -> nat -> nat -> nat -> Pixel.
Variable float_pow : float -> float -> float.

Lemma save_cell_writes (img : Image) (sp : string) (row_i col_i : nat) :
  writes (cell_names sp col_i) (save_cell lanczos img sp row_i col_i).
Proof.
  intros [out n] s' Hrun. unfold save_cell in Hrun.
  destruct (Image_crop img _) as [cell|e]; cbn [bind] in Hrun; [| discriminate].
  destruct (crop_and_center lanczos cell 256) as [r|e];
    cbn [bind] in Hrun; [| discriminate].
  unfold index, cell_names in *.
  destruct (COL_SUFFIXES !! col_i) as [suffix|];
    cbn [bind] in Hrun; [| discriminate].
  injection Hrun as <-. cbn [fst snd length].
  rewrite dom_insert_L, list_to_set_singleton_L.
  split; [apply (comm_L (∪)) | lia].
Qed.

Lemma slice_row_writes (img : Image) (sheet_info : Sheet) (row_i : nat) :
  writes (row_names sheet_info row_i) (slice_row lanczos img sheet_info row_i).
Proof.
  intros s s' Hrun. unfold slice_row, index, row_names in *.
  destruct (species sheet_info !! row_i) as [sp|];
    cbn [bind] in Hrun; [| discriminate].
  revert s s' Hrun. apply writes_for_each.
  intros col_i _. apply save_cell_writes.
Qed.

Lemma slice_sheet_writes (sheets : gmap string Image) (sheet_info : Sheet) :
  writes (sheet_names sheet_info) (slice_sheet lanczos sheets sheet_info).
Proof.
  intros s s' Hrun. unfold slice_sheet in Hrun.
  destruct (Image_open sheets (file sheet_info)) as [img|e];
    cbn [bind] in Hrun; [| discriminate].
  revert s s' Hrun. apply writes_for_each.
  intros row_i _. apply slice_row_writes.
Qed.


End MainFacts.

Lemma os_remove_all (l : list string) (d d' : gmap string Entry) :
  for_each l os_remove d = Ok d' ->
  forall k, (k ∈ l \/ d !! k = None) -> d' !! k = None.
Proof.
  revert d. induction l as [|x l IH]; intros d Hrun k Hk; simpl in Hrun.
  - injection Hrun as <-. destruct Hk as [Hk | Hk]; [| exact Hk].
    inversion Hk.
  - unfold os_remove in Hrun at 1.
    destruct (d !! x) as [[data|]|] eqn:Hx; cbn [bind] in Hrun;
      try discriminate.
    apply (IH _ Hrun k).
    destruct (decide (k = x)) as [-> | Hne].
    + right. apply lookup_delete_eq.
    + rewrite lookup_delete_ne by congruence.
      destruct Hk as [Hk | Hk]; [| right; exact Hk].
      left. apply elem_of_cons in Hk. destruct Hk; [contradiction | assumption].
Qed.

Lemma clean_output_dir_empty (out : option (gmap string Entry))
  (d : gmap string Entry) :
  clean_output_dir out = Ok d -> d = ∅.
Proof.
  destruct out as [dir|]; simpl; [| congruence].
  intros Hrun. apply map_empty. intros k.
  apply (os_remove_all _ _ _ Hrun).
  destruct (dir !! k) as [e|] eqn:Hk; [left | right; reflexivity].
  unfold os_listdir. apply list_elem_of_fmap. exists (k, e).
  split; [reflexivity |]. apply elem_of_map_to_list. exact Hk.
Qed.

(** ** The tables *)

Lemma sheet_species_NoDup : NoDup sheet_species.
Proof. apply (bool_decide_unpack _). vm_compute. exact I. Qed.


Lemma expected_files_NoDup : NoDup expected_files.
Proof. apply (bool_decide_unpack _). vm_compute. exact I. Qed.

Lemma expected_svgs_NoDup : NoDup expected_svgs.
Proof. apply (bool_decide_unpack _). vm_compute. exact I. Qed.

Lemma palette_is_sheet_species : palette_species = sheet_species.
Proof. reflexivity. Qed.

Lemma sheet_loop_names : flat_map sheet_names SHEETS = expected_pngs.
Proof. reflexivity. Qed.


(** The egg loop never raises; it leaves one document per entry and
    touches no other name. *)
Lemma write_eggs (eggs : list (string * Colors)) :
  NoDup (map egg_name eggs.*1) ->
  forall (out : gmap string Entry) (n : Z),
  exists out',
    for_each eggs write_egg (out, n) = Ok (out', n + Z.of_nat (length eggs)) /\
    (forall sp colors, In (sp, colors) eggs ->
       out' !! egg_name sp = Some (File (Text (generate_egg_svg sp colors)))) /\
    (forall k, ~ In k (map egg_name eggs.*1) -> out' !! k = out !! k).
Proof.
  induction eggs as [|[sp0 c0] rest IH]; intros Hnd out n.
  - exists out. cbn [for_each length]. rewrite Z.add_0_r.
    split; [reflexivity |]. split; [intros sp colors [] | reflexivity].
  - cbn [fmap list_fmap map fst] in Hnd. apply NoDup_cons in Hnd.
    destruct Hnd as [Hfresh Hnd].
    destruct (IH Hnd (<[egg_name sp0 := File (Text (generate_egg_svg sp0 c0))]> out)
                 (n + 1)) as (out' & Hrun & Hin & Hout).
    exists out'. split; [| split].
    + cbn [for_each write_egg bind].
      transitivity (Ok (A:=LoopState) (out', n + 1 + Z.of_nat (length rest)));
        [exact Hrun |].
      f_equal. f_equal. cbn [length]. lia.
    + intros sp colors [Heq | Hrest].
      * injection Heq as <- <-. rewrite Hout.
        -- apply lookup_insert_eq.
        -- intros Hk. apply Hfresh. apply list_elem_of_In. exact Hk.
      * apply Hin. exact Hrest.
    + intros k Hk. rewrite Hout.
      * apply lookup_insert_ne. intros E. apply Hk. left. exact E.
      * intros Hk'. apply Hk. right. exact Hk'.
Qed.

(** C7, as stated, fails: the palette keys do not strictly contain the
    sheet species; the two sets are equal. *)
Lemma palette_not_strict_superset :
  ~ ((list_to_set sheet_species : gset string)
       ⊂ (list_to_set palette_species : gset string)).
Proof.
  rewrite palette_is_sheet_species. intros [_ Hstrict].
  apply Hstrict. reflexivity.
Qed.

(** C7, amended: the palette table has 20 entries with pairwise distinct
    keys, and its keys are exactly the species of the five sheet
    descriptors, in the same order: a superset, with no additional
    species.  The egg loop never reads the sheet table: whatever the
    slicer left in the directory, it returns with the count raised by 20
    and one document [generate_egg_svg species colors] under
    [<species>-1.svg] for each of the 20 entries. *)
Theorem palette_covers_sheet_species :
  length EGG_COLORS = 20%nat /\
  NoDup palette_species /\
  palette_species = sheet_species /\
  (list_to_set sheet_species : gset string) ⊆ list_to_set palette_species /\
  forall (out : gmap string Entry) (n : Z),
  exists out',
    for_each EGG_COLORS write_egg (out, n) = Ok (out', n + 20) /\
    forall sp colors, In (sp, colors) EGG_COLORS ->
      out' !! egg_name sp = Some (File (Text (generate_egg_svg sp colors))).
Proof.
  split; [reflexivity |].
  split; [rewrite palette_is_sheet_species; exact sheet_species_NoDup |].
  split; [reflexivity |].
  split; [rewrite palette_is_sheet_species; reflexivity |].
  intros out n.
  destruct (write_eggs EGG_COLORS expected_svgs_NoDup out n)
    as (out' & Hrun & Hin & _).
  exists out'. split; [exact Hrun | exact Hin].
Qed.

Lemma palette_covers_sheet_species_witness :
  In ("spirit_dog"%string, mkColors "#C8B896" "#A08868" "#E8D8C0") EGG_COLORS /\
  exists out',
    for_each EGG_COLORS write_egg (∅, 0) = Ok (out', 20) /\
    out' !! egg_name "spirit_dog"
    = Some (File (Text (generate_egg_svg "spirit_dog"
                          (mkColors "#C8B896" "#A08868" "#E8D8C0")))).
Proof.
  assert (Hin : In ("spirit_dog"%string,
                    mkColors "#C8B896" "#A08868" "#E8D8C0") EGG_COLORS)
    by (left; reflexivity).
  split; [exact Hin |].
  destruct palette_covers_sheet_species as (_ & _ & _ & _ & Heggs).
  destruct (Heggs ∅ 0) as (out' & Hrun & Hall).
  exists out'. split; [exact Hrun | exact (Hall _ _ Hin)].
Defined.

(** ** main *)



(** * Further properties of the script *)

(** ** The crop step as a window *)

Lemma last_cons_default {T : Type} (a : T) (l : list T) (d d' : T) :
  List.last (a :: l) d = List.last (a :: l) d'.
Proof.
  revert a. induction l as [|b l IH]; intros a; [reflexivity |].
  change (List.last (b :: l) d = List.last (b :: l) d'). apply IH.
Qed.

Lemma last_cons_self {T : Type} (a : T) (l : list T) :
  List.last (a :: l) a = List.last l a.
Proof. destruct l; reflexivity. Qed.

Lemma filter_seq_bounds (f : nat -> bool) (a n x0 : nat) (xs : list nat) :
  List.filter f (seq a n) = x0 :: xs ->
  (a <= x0)%nat /\ (List.last xs x0 < a + n)%nat /\
  forall x, In x (x0 :: xs) -> (x0 <= x <= List.last xs x0)%nat.
Proof.
  revert a x0 xs. induction n as [|n IH]; intros a x0 xs Hf; simpl in Hf;
    [discriminate |].
  destruct (f a) eqn:Hfa.
  - injection Hf as <- Hxs.
    destruct xs as [|x1 xs'].
    + simpl. split; [lia |]. split; [lia |].
      intros x [<- | []]. lia.
    + destruct (IH _ _ _ Hxs) as (Hlo & Hhi & Hall).
      rewrite (last_cons_default x1 xs' a x1), last_cons_self.
      split; [lia |]. split; [lia |].
      intros x [<- | Hin].
      * specialize (Hall x1 (or_introl eq_refl)). lia.
      * specialize (Hall x Hin). lia.
  - destruct (IH _ _ _ Hf) as (Hlo & Hhi & Hall).
    split; [lia |]. split; [lia |]. exact Hall.
Qed.

Lemma col_visible_intro (img : Image) (x y : nat) :
  (y < height img)%nat -> visible img x y = true -> col_visible img x = true.
Proof.
  intros Hy Hv. unfold col_visible. apply existsb_exists.
  exists y. split; [apply in_seq; lia | exact Hv].
Qed.

Lemma row_visible_intro (img : Image) (x y : nat) :
  (x < width img)%nat -> visible img x y = true -> row_visible img y = true.
Proof.
  intros Hx Hv. unfold row_visible. apply existsb_exists.
  exists x. split; [apply in_seq; lia | exact Hv].
Qed.

(** What [getbbox] returns, in natural numbers: the box is inside the
    image, not inverted, holds every visible pixel, and each of its four
    border lines holds one. *)
Lemma getbbox_spec (img : Image) :
  (getbbox img = None /\
   forall x y, (x < width img)%nat -> (y < height img)%nat ->
               visible img x y = false) \/
  (exists x0 y0 x1 y1 : nat,
     getbbox img = Some (Z.of_nat x0, Z.of_nat y0,
                         Z.of_nat x1 + 1, Z.of_nat y1 + 1) /\
     (x0 <= x1 < width img)%nat /\ (y0 <= y1 < height img)%nat /\
     col_visible img x0 = true /\ col_visible img x1 = true /\
     row_visible img y0 = true /\ row_visible img y1 = true /\
     forall x y, (x < width img)%nat -> (y < height img)%nat ->
                 visible img x y = true ->
                 (x0 <= x <= x1)%nat /\ (y0 <= y <= y1)%nat).
Proof.
  unfold getbbox.
  destruct (List.filter (col_visible img) (seq 0 (width img)))
    as [|x0 xs] eqn:Hx.
  { left. split; [reflexivity |]. intros x y Hxw Hyh.
    destruct (visible img x y) eqn:Hv; [| reflexivity].
    assert (Hin : In x (List.filter (col_visible img) (seq 0 (width img)))).
    { apply filter_In. split; [apply in_seq; lia |].
      apply (col_visible_intro img x y Hyh Hv). }
    rewrite Hx in Hin. destruct Hin. }
  destruct (List.filter (row_visible img) (seq 0 (height img)))
    as [|y0 ys] eqn:Hy.
  { left. split; [reflexivity |]. intros x y Hxw Hyh.
    destruct (visible img x y) eqn:Hv; [| reflexivity].
    assert (Hin : In y (List.filter (row_visible img) (seq 0 (height img)))).
    { apply filter_In. split; [apply in_seq; lia |].
      apply (row_visible_intro img x y Hxw Hv). }
    rewrite Hy in Hin. destruct Hin. }
  right. exists x0, y0, (List.last xs x0), (List.last ys y0).
  destruct (filter_seq_bounds _ _ _ _ _ Hx) as (_ & Hxhi & Hxall).
  destruct (filter_seq_bounds _ _ _ _ _ Hy) as (_ & Hyhi & Hyall).
  assert (Hx0 : In x0 (List.filter (col_visible img) (seq 0 (width img))))
    by (rewrite Hx; left; reflexivity).
  assert (Hy0 : In y0 (List.filter (row_visible img) (seq 0 (height img))))
    by (rewrite Hy; left; reflexivity).
  assert (Hx1 : In (List.last xs x0)
                   (List.filter (col_visible img) (seq 0 (width img)))).
  { rewrite Hx. destruct (last_in_or_default xs x0) as [-> | Hin];
      [left; reflexivity | right; exact Hin]. }
  assert (Hy1 : In (List.last ys y0)
                   (List.filter (row_visible img) (seq 0 (height img)))).
  { rewrite Hy. destruct (last_in_or_default ys y0) as [-> | Hin];
      [left; reflexivity | right; exact Hin]. }
  split; [reflexivity |].
  split; [pose proof (Hxall x0 (or_introl eq_refl)); lia |].
  split; [pose proof (Hyall y0 (or_introl eq_refl)); lia |].
  split; [apply filter_In in Hx0; tauto |].
  split; [apply filter_In in Hx1; tauto |].
  split; [apply filter_In in Hy0; tauto |].
  split; [apply filter_In in Hy1; tauto |].
  intros x y Hxw Hyh Hv. split.
  - apply Hxall. rewrite <- Hx. apply filter_In.
    split; [apply in_seq; lia | apply (col_visible_intro img x y Hyh Hv)].
  - apply Hyall. rewrite <- Hy. apply filter_In.
    split; [apply in_seq; lia | apply (row_visible_intro img x y Hxw Hv)].
Qed.

Lemma rgba_view (img : Image) :
  let im := if Mode_eqb (mode img) M_RGBA then img else convert_RGBA img in
  mode im = M_RGBA /\ width im = width img /\ height im = height img /\
  getpixel im = getpixel img.
Proof.
  cbv zeta. destruct (Mode_eqb (mode img) M_RGBA) eqn:E.
  - apply Mode_eqb_eq in E. auto.
  - simpl. auto.
Qed.

Lemma Image_crop_box (im : Image) (x0 y0 x1 y1 : nat) :
  (x0 <= x1 < width im)%nat -> (y0 <= y1 < height im)%nat ->
  exists c,
    Image_crop im (Z.of_nat x0, Z.of_nat y0, Z.of_nat x1 + 1, Z.of_nat y1 + 1)
    = Ok c /\
    mode c = mode im /\
    width c = (x1 + 1 - x0)%nat /\ height c = (y1 + 1 - y0)%nat /\
    forall i j, (i < width c)%nat -> (j < height c)%nat ->
                getpixel c i j = getpixel im (x0 + i) (y0 + j).
Proof.
  intros Hx Hy. unfold Image_crop.
  destruct (Z.ltb_spec (Z.of_nat x1 + 1) (Z.of_nat x0)); [lia |].
  destruct (Z.ltb_spec (Z.of_nat y1 + 1) (Z.of_nat y0)); [lia |].
  eexists. split; [reflexivity |]. cbn [mode width height getpixel].
  split; [reflexivity |]. split; [lia |]. split; [lia |].
  intros i j Hi Hj.
  replace (Z.of_nat x0 + Z.of_nat i) with (Z.of_nat (x0 + i)) by lia.
  replace (Z.of_nat y0 + Z.of_nat j) with (Z.of_nat (y0 + j)) by lia.
  rewrite !Nat2Z.id.
  destruct (Z.leb_spec 0 (Z.of_nat (x0 + i))); [| lia].
  destruct (Z.ltb_spec (Z.of_nat (x0 + i)) (Z.of_nat (width im))); [| lia].
  destruct (Z.leb_spec 0 (Z.of_nat (y0 + j))); [| lia].
  destruct (Z.ltb_spec (Z.of_nat (y0 + j)) (Z.of_nat (height im))); [| lia].
  reflexivity.
Qed.

(** X1: the crop step never raises, and what it returns is an RGBA window
    into the input: it lies inside the input, shows the input's pixels at
    a fixed offset, and contains every pixel of non-zero alpha. *)
Theorem auto_crop_alpha_window (img : Image) :
  exists (c : Image) (x0 y0 : nat),
    auto_crop_alpha img = Ok c /\
    mode c = M_RGBA /\
    (x0 + width c <= width img)%nat /\ (y0 + height c <= height img)%nat /\
    (forall i j, (i < width c)%nat -> (j < height c)%nat ->
                 getpixel c i j = getpixel img (x0 + i) (y0 + j)) /\
    (forall x y, (x < width img)%nat -> (y < height img)%nat ->
                 visible img x y = true ->
                 (x0 <= x < x0 + width c)%nat /\
                 (y0 <= y < y0 + height c)%nat).
Proof.
  unfold auto_crop_alpha.
  destruct (rgba_view img) as (Hm & Hw & Hh & Hp). cbv zeta in *.
  set (im := if Mode_eqb (mode img) M_RGBA then img else convert_RGBA img) in *.
  assert (Hvis : forall x y, visible im x y = visible img x y)
    by (intros x y; unfold visible; rewrite Hp; reflexivity).
  destruct (getbbox_spec im)
    as [[Hnone Hall] |
        (x0 & y0 & x1 & y1 & Hbox & Hx & Hy & _ & _ & _ & _ & Hin)].
  - rewrite Hnone. exists im, 0%nat, 0%nat.
    split; [reflexivity |]. split; [exact Hm |].
    split; [lia |]. split; [lia |].
    split; [intros i j _ _; rewrite Hp; reflexivity |].
    intros x y Hxw Hyh Hv. rewrite <- Hvis, Hall in Hv by lia. discriminate.
  - rewrite Hbox.
    destruct (Image_crop_box im x0 y0 x1 y1 Hx Hy)
      as (c & Hc & Hmc & Hwc & Hhc & Hpix).
    exists c, x0, y0. split; [exact Hc |].
    split; [congruence |]. split; [lia |]. split; [lia |].
    split; [intros i j Hi Hj; rewrite (Hpix i j Hi Hj), Hp; reflexivity |].
    intros x y Hxw Hyh Hv. rewrite <- Hvis in Hv.
    specialize (Hin x y ltac:(lia) ltac:(lia) Hv). lia.
Qed.

(** X2: when the input has a pixel of non-zero alpha, the crop is tight:
    the returned image is not empty and its first and last column and its
    first and last row each hold a pixel of non-zero alpha. *)
Theorem auto_crop_alpha_tight (img : Image) (x y : nat) :
  (x < width img)%nat -> (y < height img)%nat -> visible img x y = true ->
  exists c,
    auto_crop_alpha img = Ok c /\
    (0 < width c)%nat /\ (0 < height c)%nat /\
    col_visible c 0 = true /\ col_visible c (width c - 1) = true /\
    row_visible c 0 = true /\ row_visible c (height c - 1) = true.
Proof.
  intros Hxw Hyh Hv. unfold auto_crop_alpha.
  destruct (rgba_view img) as (Hm & Hw & Hh & Hp). cbv zeta in *.
  set (im := if Mode_eqb (mode img) M_RGBA then img else convert_RGBA img) in *.
  assert (Hv' : visible im x y = true)
    by (unfold visible in *; rewrite Hp; exact Hv).
  destruct (getbbox_spec im)
    as [[_ Hall] |
        (x0 & y0 & x1 & y1 & Hbox & Hx & Hy & Hc0 & Hc1 & Hr0 & Hr1 & Hin)].
  { rewrite Hall in Hv' by lia. discriminate. }
  rewrite Hbox.
  destruct (Image_crop_box im x0 y0 x1 y1 Hx Hy)
    as (c & Hc & _ & Hwc & Hhc & Hpix).
  exists c. split; [exact Hc |]. split; [lia |]. split; [lia |].
  assert (Hcol : forall i, (i < width c)%nat ->
                           col_visible im (x0 + i) = true ->
                           col_visible c i = true).
  { intros i Hi Hcv. unfold col_visible in Hcv. apply existsb_exists in Hcv.
    destruct Hcv as (y' & Hy' & Hvy). apply in_seq in Hy'.
    assert (Hb := Hin (x0 + i)%nat y' ltac:(lia) ltac:(lia) Hvy).
    apply (col_visible_intro c i (y' - y0)); [lia |].
    unfold visible in *. rewrite Hpix by lia.
    replace (y0 + (y' - y0))%nat with y' by lia. exact Hvy. }
  assert (Hrow : forall j, (j < height c)%nat ->
                           row_visible im (y0 + j) = true ->
                           row_visible c j = true).
  { intros j Hj Hrv. unfold row_visible in Hrv. apply existsb_exists in Hrv.
    destruct Hrv as (x' & Hx' & Hvx). apply in_seq in Hx'.
    assert (Hb := Hin x' (y0 + j)%nat ltac:(lia) ltac:(lia) Hvx).
    apply (row_visible_intro c (x' - x0) j); [lia |].
    unfold visible in *. rewrite Hpix by lia.
    replace (x0 + (x' - x0))%nat with x' by lia. exact Hvx. }
  split; [apply Hcol; [lia | rewrite Nat.add_0_r; exact Hc0] |].
  split; [apply Hcol; [lia |];
          replace (x0 + (width c - 1))%nat with x1 by lia; exact Hc1 |].
  split; [apply Hrow; [lia | rewrite Nat.add_0_r; exact Hr0] |].
  apply Hrow; [lia |].
  replace (y0 + (height c - 1))%nat with y1 by lia. exact Hr1.
Qed.

(** ** Crop and center: outcome and layout *)

Lemma auto_crop_alpha_smaller (img c : Image) :
  auto_crop_alpha img = Ok c ->
  (width c <= width img)%nat /\ (height c <= height img)%nat.
Proof.
  unfold auto_crop_alpha.
  destruct (rgba_view img) as (_ & Hw & Hh & _). cbv zeta in *.
  set (im := if Mode_eqb (mode img) M_RGBA then img else convert_RGBA img) in *.
  destruct (getbbox_spec im)
    as [[Hnone _] | (x0 & y0 & x1 & y1 & Hbox & Hx & Hy & _)].
  - rewrite Hnone. intros [= <-]. lia.
  - rewrite Hbox.
    destruct (Image_crop_box im x0 y0 x1 y1 Hx Hy)
      as (c' & Hc & _ & Hwc & Hhc & _).
    rewrite Hc. intros [= <-]. lia.
Qed.

Lemma half_bounds (z : Z) : 2 * (z / 2) <= z < 2 * (z / 2) + 2.
Proof.
  pose proof (Z.div_mod z 2 ltac:(lia)).
  pose proof (Z.mod_pos_bound z 2 ltac:(lia)). lia.
Qed.

Lemma int_by_shift_eq (f : float) : Py.int f = int_by_shift f.
Proof.
  unfold Py.int, int_by_shift.
  destruct (Prim2SF f) as [s | s | | s m e]; try reflexivity.
  cbv zeta. destruct (Z.leb_spec 0 e) as [He | He].
  - rewrite Z.shiftl_mul_pow2 by lia. reflexivity.
  - rewrite Z.shiftr_div_pow2 by lia. reflexivity.
Qed.

Lemma scaled_size_by_shift_eq (target_size w h : Z) :
  scaled_size target_size w h = scaled_size_by_shift target_size w h.
Proof.
  unfold scaled_size, scaled_size_by_shift. rewrite !int_by_shift_eq.
  reflexivity.
Qed.

Lemma cell_bounds_by_shift_eq (img_w img_h row_i col_i : Z) :
  cell_bounds img_w img_h row_i col_i
  = cell_bounds_by_shift img_w img_h row_i col_i.
Proof.
  unfold cell_bounds, cell_bounds_by_shift. rewrite !int_by_shift_eq.
  reflexivity.
Qed.

Lemma in_zrange (n : nat) (lo z : Z) :
  lo <= z < lo + Z.of_nat n -> In z (zrange lo n).
Proof.
  revert lo. induction n as [|n IH]; intros lo Hz; [lia |].
  cbn [zrange]. destruct (Z.eq_dec z lo) as [-> | Hne]; [left; reflexivity |].
  right. apply IH. lia.
Qed.

Lemma scaled_fits_table :
  forallb (fun w => forallb (scaled_fits_by_shift w) (zrange 1 400))
          (zrange 1 400) = true.
Proof. vm_cast_no_check (eq_refl true). Qed.

Lemma scaled_size_fits (w h : nat) :
  (1 <= w <= 400)%nat -> (1 <= h <= 400)%nat ->
  let '(new_w, new_h) := scaled_size 256 (Z.of_nat w) (Z.of_nat h) in
  0 <= new_w <= 224 /\ 0 <= new_h <= 224 /\
  223 <= Z.max new_w new_h /\
  ((h <= w)%nat -> new_h <= new_w) /\ ((w <= h)%nat -> new_w <= new_h).
Proof.
  intros Hw Hh.
  assert (Hinw : In (Z.of_nat w) (zrange 1 400)) by (apply in_zrange; lia).
  assert (Hinh : In (Z.of_nat h) (zrange 1 400)) by (apply in_zrange; lia).
  pose proof (proj1 (forallb_forall _ _) scaled_fits_table _ Hinw) as Hrow.
  pose proof (proj1 (forallb_forall _ _) Hrow _ Hinh) as Hcell.
  unfold scaled_fits_by_shift in Hcell.
  rewrite <- scaled_size_by_shift_eq in Hcell.
  assert (Hsq : w = h ->
                (scaled_size 256 (Z.of_nat w) (Z.of_nat h)).1
                = (scaled_size 256 (Z.of_nat w) (Z.of_nat h)).2)
    by (intros ->; reflexivity).
  destruct (scaled_size 256 (Z.of_nat w) (Z.of_nat h)) as [nw nh].
  cbn [fst snd] in Hsq.
  apply andb_true_iff in Hcell. destruct Hcell as [Hcell H6].
  apply andb_true_iff in Hcell. destruct Hcell as [Hcell H5].
  apply andb_true_iff in Hcell. destruct Hcell as [Hcell H4].
  apply andb_true_iff in Hcell. destruct Hcell as [Hcell H3].
  apply andb_true_iff in Hcell. destruct Hcell as [H1 H2].
  apply Z.leb_le in H1, H2, H3, H4, H5.
  split; [lia |]. split; [lia |]. split; [lia |].
  destruct (Z.leb_spec (Z.of_nat h) (Z.of_nat w)) as [Hle | Hlt];
    apply Z.leb_le in H6.
  - split; [intros _; exact H6 |]. intros Hwh.
    rewrite Hsq by lia. lia.
  - split; [lia |]. intros _. exact H6.
Qed.

Section Layout.

Variable lanczos : Image -> nat -> nat -> nat -> nat -> Pixel.

(** X3: [crop_and_center] returns exactly when the content left by
    cleanup and crop is empty or both of its scaled dimensions are at
    least 1; the crop step itself never raises. *)
Theorem crop_and_center_ok_iff (img : Image) (n : nat) :
  exists c,
    auto_crop_alpha (remove_checkerboard_bg img) = Ok c /\
    (is_ok (crop_and_center lanczos img n) = true <->
     (width c = 0%nat \/ height c = 0%nat \/
      (1 <= (scaled_size (Z.of_nat n) (Z.of_nat (width c))
                         (Z.of_nat (height c))).1 /\
       1 <= (scaled_size (Z.of_nat n) (Z.of_nat (width c))
                         (Z.of_nat (height c))).2))).
Proof.
  destruct (auto_crop_alpha_never_raises (remove_checkerboard_bg img))
    as [c Hc].
  exists c. split; [exact Hc |].
  destruct (Nat.eq_dec (width c) 0%nat) as [Hw | Hw].
  { split; [auto |]. intros _. unfold crop_and_center. rewrite Hc.
    cbn [bind]. rewrite Hw. reflexivity. }
  destruct (Nat.eq_dec (height c) 0%nat) as [Hh | Hh].
  { split; [auto |]. intros _. unfold crop_and_center. rewrite Hc.
    cbn [bind]. rewrite Hh, orb_true_r. reflexivity. }
  split.
  - intros Hok. right. right.
    destruct (Z_lt_le_dec
                (scaled_size (Z.of_nat n) (Z.of_nat (width c))
                             (Z.of_nat (height c))).1 1) as [H1 | H1];
      [rewrite (crop_and_center_raises lanczos img c n Hc Hw Hh) in Hok;
       [discriminate | left; exact H1] |].
    destruct (Z_lt_le_dec
                (scaled_size (Z.of_nat n) (Z.of_nat (width c))
                             (Z.of_nat (height c))).2 1) as [H2 | H2];
      [rewrite (crop_and_center_raises lanczos img c n Hc Hw Hh) in Hok;
       [discriminate | right; exact H2] |].
    split; assumption.
  - intros [Hw0 | [Hh0 | [H1 H2]]]; [contradiction | contradiction |].
    destruct (crop_and_center_returns lanczos img c n Hc Hw Hh H1 H2)
      as [r Hr].
    rewrite Hr. reflexivity.
Qed.

(** X4: whenever [crop_and_center] returns, the result is an RGBA canvas
    of the target size.  When the content left by cleanup and crop is
    empty the canvas is transparent black throughout.  Otherwise, with
    [(new_w, new_h)] the scaled size of the content, the resize step has
    returned an image of exactly that size, and the canvas is transparent
    black outside the rectangle of that size whose left and top offsets
    are [(target_size - new_w) // 2] and [(target_size - new_h) // 2];
    inside the rectangle each pixel is the resized pixel at the
    corresponding position pasted over transparent black with itself as
    the mask. *)
Theorem crop_and_center_layout (img r : Image) (n : nat) :
  crop_and_center lanczos img n = Ok r ->
  mode r = M_RGBA /\ width r = n /\ height r = n /\
  exists c,
    auto_crop_alpha (remove_checkerboard_bg img) = Ok c /\
    (width c = 0%nat \/ height c = 0%nat ->
     forall x y, getpixel r x y = transparent) /\
    (width c <> 0%nat -> height c <> 0%nat ->
     let '(new_w, new_h) :=
       scaled_size (Z.of_nat n) (Z.of_nat (width c)) (Z.of_nat (height c)) in
     let paste_x := (Z.of_nat n - new_w) / 2 in
     let paste_y := (Z.of_nat n - new_h) / 2 in
     exists resized,
       Image_resize lanczos c new_w new_h = Ok resized /\
       1 <= new_w /\ 1 <= new_h /\
       Z.of_nat (width resized) = new_w /\
       Z.of_nat (height resized) = new_h /\
       forall x y,
         (paste_x <= Z.of_nat x < paste_x + new_w /\
          paste_y <= Z.of_nat y < paste_y + new_h ->
          getpixel r x y
          = blend_pixel transparent
              (getpixel resized (Z.to_nat (Z.of_nat x - paste_x))
                                (Z.to_nat (Z.of_nat y - paste_y)))
              (getpixel resized (Z.to_nat (Z.of_nat x - paste_x))
                                (Z.to_nat (Z.of_nat y - paste_y)))) /\
         (~ (paste_x <= Z.of_nat x < paste_x + new_w /\
             paste_y <= Z.of_nat y < paste_y + new_h) ->
          getpixel r x y = transparent)).
Proof.
  intros Hrun.
  split; [exact (proj1 (crop_and_center_size lanczos img r n Hrun)) |].
  split; [exact (proj1 (proj2 (crop_and_center_size lanczos img r n Hrun))) |].
  split; [exact (proj2 (proj2 (crop_and_center_size lanczos img r n Hrun))) |].
  unfold crop_and_center in Hrun.
  destruct (auto_crop_alpha (remove_checkerboard_bg img)) as [c|e];
    cbn [bind] in Hrun; [| discriminate].
  exists c. split; [reflexivity |].
  destruct (Nat.eqb (width c) 0 || Nat.eqb (height c) 0) eqn:Hz.
  - injection Hrun as <-. split; [intros _ x y; reflexivity |].
    intros Hw Hh. exfalso. apply orb_true_iff in Hz.
    destruct Hz as [Hz | Hz]; apply Nat.eqb_eq in Hz; contradiction.
  - apply orb_false_iff in Hz. destruct Hz as [Hz1 Hz2].
    apply Nat.eqb_neq in Hz1, Hz2.
    split; [intros [H0 | H0]; contradiction |].
    intros _ _.
    destruct (scaled_size (Z.of_nat n) (Z.of_nat (width c))
                          (Z.of_nat (height c))) as [nw nh].
    destruct (Image_resize lanczos c nw nh) as [rz|e] eqn:Hrz;
      cbn [bind] in Hrun; [| discriminate].
    injection Hrun as <-. cbv zeta.
    exists rz. split; [reflexivity |].
    pose proof (Image_resize_size lanczos c rz nw nh Hrz) as (Hw & Hh & _).
    assert (Hpos : 1 <= nw /\ 1 <= nh).
    { unfold Image_resize in Hrz.
      destruct ((Z.of_nat (width c) =? nw) && (Z.of_nat (height c) =? nh))
        eqn:Hsame.
      - apply andb_true_iff in Hsame. destruct Hsame as [E1 E2].
        apply Z.eqb_eq in E1, E2. lia.
      - destruct ((nw <? 1) || (nh <? 1)) eqn:Hsmall; [discriminate |].
        apply orb_false_iff in Hsmall. destruct Hsmall as [E1 E2].
        apply Z.ltb_ge in E1, E2. lia. }
    split; [exact (proj1 Hpos) |]. split; [exact (proj2 Hpos) |].
    split; [exact Hw |]. split; [exact Hh |].
    intros x y. cbn [Image_paste Image_new getpixel].
    destruct ((0 <=? Z.of_nat x - (Z.of_nat n - nw) / 2) &&
              (Z.of_nat x - (Z.of_nat n - nw) / 2 <? Z.of_nat (width rz)) &&
              (0 <=? Z.of_nat y - (Z.of_nat n - nh) / 2) &&
              (Z.of_nat y - (Z.of_nat n - nh) / 2 <? Z.of_nat (height rz)))
      eqn:Hin.
    + split; [intros _; reflexivity |].
      intros Hout. exfalso. apply Hout.
      apply andb_true_iff in Hin. destruct Hin as [Hin Hy1].
      apply andb_true_iff in Hin. destruct Hin as [Hin Hy0].
      apply andb_true_iff in Hin. destruct Hin as [Hx0 Hx1].
      apply Z.leb_le in Hx0, Hy0. apply Z.ltb_lt in Hx1, Hy1. lia.
    + split; [| intros _; reflexivity].
      intros ((Hx0 & Hx1) & (Hy0 & Hy1)). exfalso.
      destruct (Z.leb_spec 0 (Z.of_nat x - (Z.of_nat n - nw) / 2)); [| lia].
      destruct (Z.ltb_spec (Z.of_nat x - (Z.of_nat n - nw) / 2)
                           (Z.of_nat (width rz))); [| lia].
      destruct (Z.leb_spec 0 (Z.of_nat y - (Z.of_nat n - nh) / 2)); [| lia].
      destruct (Z.ltb_spec (Z.of_nat y - (Z.of_nat n - nh) / 2)
                           (Z.of_nat (height rz))); [| lia].
      discriminate Hin.
Qed.

(** X5: for a cell of at most 400 by 400 pixels, whenever
    [crop_and_center] returns its 256 canvas, the 16 outermost pixels on
    every side are transparent: the padding is kept. *)
Theorem crop_and_center_padding (img r : Image) :
  (width img <= 400)%nat -> (height img <= 400)%nat ->
  crop_and_center lanczos img 256 = Ok r ->
  forall x y, (x < 16 \/ 240 <= x \/ y < 16 \/ 240 <= y)%nat ->
              getpixel r x y = transparent.
Proof.
  intros Hwi Hhi. unfold crop_and_center.
  destruct (auto_crop_alpha (remove_checkerboard_bg img)) as [c|e] eqn:Hc;
    cbn [bind]; [| discriminate].
  apply auto_crop_alpha_smaller in Hc.
  destruct (remove_checkerboard_bg_size img) as (_ & Hw' & Hh').
  destruct (Nat.eqb (width c) 0 || Nat.eqb (height c) 0) eqn:Hz.
  - intros [= <-] x y _. reflexivity.
  - apply orb_false_iff in Hz. destruct Hz as [Hz1 Hz2].
    apply Nat.eqb_neq in Hz1, Hz2.
    pose proof (scaled_size_fits (width c) (height c)
                  ltac:(lia) ltac:(lia)) as Hfit.
    cbv zeta in Hfit.
    change (Z.of_nat 256) with 256.
    destruct (scaled_size 256 (Z.of_nat (width c)) (Z.of_nat (height c)))
      as [nw nh].
    destruct (Image_resize lanczos c nw nh) as [rz|e] eqn:Hrz;
      cbn [bind]; [| discriminate].
    apply Image_resize_size in Hrz. destruct Hrz as (Hw & Hh & _).
    intros [= <-] x y Hborder. cbn [Image_paste Image_new getpixel].
    destruct ((0 <=? Z.of_nat x - (256 - nw) / 2) &&
              (Z.of_nat x - (256 - nw) / 2 <? Z.of_nat (width rz)) &&
              (0 <=? Z.of_nat y - (256 - nh) / 2) &&
              (Z.of_nat y - (256 - nh) / 2 <? Z.of_nat (height rz)))
      eqn:Hin; [| reflexivity].
    exfalso.
    apply andb_true_iff in Hin. destruct Hin as [Hin Hy1].
    apply andb_true_iff in Hin. destruct Hin as [Hin Hy0].
    apply andb_true_iff in Hin. destruct Hin as [Hx0 Hx1].
    apply Z.leb_le in Hx0, Hy0. apply Z.ltb_lt in Hx1, Hy1.
    pose proof (half_bounds (256 - nw)). pose proof (half_bounds (256 - nh)).
    destruct Hfit as (Hf1 & Hf2 & _). lia.
Qed.

End Layout.

(** X17: for a content of at most 400 by 400 pixels, the scaled size
    fits the 224 by 224 area inside the padding, its longer side is 224
    or, by float rounding, 223, and the longer side of the content is the
    longer side of the scaled size. *)
Theorem scaled_size_longer_side (w h : nat) :
  (1 <= w <= 400)%nat -> (1 <= h <= 400)%nat ->
  let '(new_w, new_h) := scaled_size 256 (Z.of_nat w) (Z.of_nat h) in
  0 <= new_w <= 224 /\ 0 <= new_h <= 224 /\
  (Z.max new_w new_h = 223 \/ Z.max new_w new_h = 224) /\
  ((h <= w)%nat -> new_h <= new_w) /\ ((w <= h)%nat -> new_w <= new_h).
Proof.
  intros Hw Hh. pose proof (scaled_size_fits w h Hw Hh) as Hfit.
  destruct (scaled_size 256 (Z.of_nat w) (Z.of_nat h)) as [nw nh].
  destruct Hfit as (H1 & H2 & H3 & H4 & H5).
  split; [exact H1 |]. split; [exact H2 |]. split; [lia |].
  split; assumption.
Qed.


(** ** Cells that hold only background *)

Lemma nearest_keeps_transparency_within : keeps_transparency_within nearest.
Proof.
  intros src w h x y Hws Hhs Hx Hy Ht. unfold nearest. apply Ht.
  - apply Nat.Div0.div_lt_upper_bound. nia.
  - apply Nat.Div0.div_lt_upper_bound. nia.
Qed.

Lemma only_background_cleaned (img : Image) :
  only_background img -> fully_transparent (remove_checkerboard_bg img).
Proof.
  intros Hbg x y Hx Hy.
  destruct (remove_checkerboard_bg_size img) as (_ & Hw & Hh).
  rewrite remove_checkerboard_bg_pixel. unfold clear_gray. cbn [A].
  destruct (is_gray (getpixel img x y)) eqn:E; [reflexivity |].
  destruct (Hbg x y ltac:(lia) ltac:(lia)) as [Hg | Ha]; [| exact Ha].
  apply is_gray_true in Hg. congruence.
Qed.

Section Background.

Variable lanczos : Image -> nat -> nat -> nat -> nat -> Pixel.

(** X6: a cell in which every pixel is gray (checkerboard) or already
    transparent comes out blank: with a resampling kernel that keeps
    transparent images transparent, whenever [crop_and_center] returns,
    every pixel of the canvas is transparent black. *)
Theorem crop_and_center_background_only (img r : Image) (n : nat) :
  keeps_transparency_within lanczos ->
  only_background img ->
  crop_and_center lanczos img n = Ok r ->
  forall x y, getpixel r x y = transparent.
Proof.
  intros Hk Hbg Hrun.
  pose proof (only_background_cleaned img Hbg) as Htc.
  unfold crop_and_center in Hrun.
  rewrite (auto_crop_alpha_transparent _ Htc) in Hrun. cbn [bind] in Hrun.
  destruct (remove_checkerboard_bg_size img) as (Hm & _ & _).
  rewrite Hm in Hrun. cbn [Mode_eqb] in Hrun.
  set (c := remove_checkerboard_bg img) in *.
  destruct (Nat.eqb (width c) 0 || Nat.eqb (height c) 0) eqn:Hz.
  - injection Hrun as <-. reflexivity.
  - apply orb_false_iff in Hz. destruct Hz as [Hz1 Hz2].
    apply Nat.eqb_neq in Hz1, Hz2.
    destruct (scaled_size (Z.of_nat n) (Z.of_nat (width c))
                          (Z.of_nat (height c))) as [nw nh].
    destruct (Image_resize lanczos c nw nh) as [rz|e] eqn:Hrz;
      cbn [bind] in Hrun; [| discriminate].
    injection Hrun as <-.
    assert (Hz : fully_transparent rz).
    { unfold Image_resize in Hrz.
      destruct ((Z.of_nat (width c) =? nw) && (Z.of_nat (height c) =? nh)).
      - injection Hrz as <-. exact Htc.
      - destruct ((nw <? 1) || (nh <? 1)); [discriminate |].
        injection Hrz as <-. intros x y Hx Hy. cbn [getpixel width height] in *.
        apply Hk; [lia | lia | exact Hx | exact Hy | exact Htc]. }
    intros x y. cbn [Image_paste getpixel Image_new].
    destruct ((0 <=? Z.of_nat x - (Z.of_nat n - nw) / 2) &&
              (Z.of_nat x - (Z.of_nat n - nw) / 2 <? Z.of_nat (width rz)) &&
              (0 <=? Z.of_nat y - (Z.of_nat n - nh) / 2) &&
              (Z.of_nat y - (Z.of_nat n - nh) / 2 <? Z.of_nat (height rz)))
      eqn:Hin; [| reflexivity].
    rewrite blend_pixel_transparent; [reflexivity |].
    apply andb_true_iff in Hin. destruct Hin as [Hin Hy1].
    apply andb_true_iff in Hin. destruct Hin as [Hin Hy0].
    apply andb_true_iff in Hin. destruct Hin as [Hx0 Hx1].
    apply Hz; lia.
Qed.

End Background.

(** ** Sheet geometry: gutters and bounds *)

Lemma sheet_geometry_table :
  forallb (fun w => forallb (col_edges_ok_by_shift w) (zrange 0 7))
          (zrange 743 3354) &&
  forallb (fun h => forallb (row_edges_ok_by_shift h) (zrange 0 4))
          (zrange 532 3565) = true.
Proof. vm_cast_no_check (eq_refl true). Qed.

Lemma col_edges_in_range (img_w col_i : Z) :
  743 <= img_w <= 4096 -> 0 <= col_i < 7 ->
  let '(lft, _, rgt, _) := cell_bounds img_w 0 0 col_i in
  30 <= lft < rgt /\ rgt <= img_w - 346.
Proof.
  intros Hw Hc.
  pose proof sheet_geometry_table as Ht. apply andb_true_iff in Ht.
  destruct Ht as [Ht _].
  assert (Hinw : In img_w (zrange 743 3354)) by (apply in_zrange; lia).
  assert (Hinc : In col_i (zrange 0 7)) by (apply in_zrange; lia).
  pose proof (proj1 (forallb_forall _ _)
                (proj1 (forallb_forall _ _) Ht img_w Hinw) col_i Hinc) as Hok.
  unfold col_edges_ok_by_shift in Hok.
  rewrite <- cell_bounds_by_shift_eq in Hok.
  destruct (cell_bounds img_w 0 0 col_i) as [[[lft top] rgt] bottom].
  apply andb_true_iff in Hok. destruct Hok as [Hok H3].
  apply andb_true_iff in Hok. destruct Hok as [H1 H2].
  apply Z.leb_le in H1, H3. apply Z.ltb_lt in H2. lia.
Qed.

Lemma row_edges_in_range (img_h row_i : Z) :
  532 <= img_h <= 4096 -> 0 <= row_i < 4 ->
  let '(_, top, _, bottom) := cell_bounds 0 img_h row_i 0 in
  let '(_, next_top, _, _) := cell_bounds 0 img_h (row_i + 1) 0 in
  12 <= top < bottom /\ bottom <= img_h - 120 /\ next_top = bottom + 132.
Proof.
  intros Hh Hr.
  pose proof sheet_geometry_table as Ht. apply andb_true_iff in Ht.
  destruct Ht as [_ Ht].
  assert (Hinh : In img_h (zrange 532 3565)) by (apply in_zrange; lia).
  assert (Hinr : In row_i (zrange 0 4)) by (apply in_zrange; lia).
  pose proof (proj1 (forallb_forall _ _)
                (proj1 (forallb_forall _ _) Ht img_h Hinh) row_i Hinr) as Hok.
  unfold row_edges_ok_by_shift in Hok.
  rewrite <- !cell_bounds_by_shift_eq in Hok.
  destruct (cell_bounds 0 img_h row_i 0) as [[[lft top] rgt] bottom].
  destruct (cell_bounds 0 img_h (row_i + 1) 0) as [[[lft' top'] rgt'] bottom'].
  apply andb_true_iff in Hok. destruct Hok as [Hok H4].
  apply andb_true_iff in Hok. destruct Hok as [Hok H3].
  apply andb_true_iff in Hok. destruct Hok as [H1 H2].
  apply Z.leb_le in H1, H3. apply Z.ltb_lt in H2. apply Z.eqb_eq in H4. lia.
Qed.

(** *** The cell rectangle in exact arithmetic *)







(** The right edge of the last column can come out one pixel short of the
    exact quotient: on a sheet 769 wide, [7 * (453 / 7)] is rounded below
    453 and the cell ends at 422, not at 423. *)
Lemma cell_bounds_last_column_rounding :
  cell_bounds 769 1536 0 6 = (418, 12, 422, 264) /\
  inset_rect_top 30 12 (span_rect 769 1536 0 6) = (418, 12, 423, 264) /\
  ~ last_edge_exact 769.
Proof.
  split; [vm_compute; reflexivity |].
  split; [vm_compute; reflexivity |].
  unfold last_edge_exact. vm_compute. discriminate.
Qed.



(** X7: on a sheet of any size, the cells of one row share their top and
    bottom edges, and each cell starts exactly 60 pixels to the right of
    the right edge of the cell before it: neighbouring cells never
    overlap and the gutter between them is 60 wide. *)
Theorem cell_bounds_gutter (img_w img_h r c : Z) :
  let '(l0, t0, r0, b0) := cell_bounds img_w img_h r c in
  let '(l1, t1, r1, b1) := cell_bounds img_w img_h r (c + 1) in
  l1 = r0 + 60 /\ t1 = t0 /\ b1 = b0.
Proof.
  unfold cell_bounds. cbv zeta. split; [lia |]. split; reflexivity.
Qed.

(** X8: on a sheet between 743 and 4096 pixels wide and between 532 and
    4096 pixels high, each of the 28 cell rectangles is non-empty and
    inside the sheet: at least 30 from the left edge, at most at
    [W - 346] (clear of the 316 wide label margin), at least 12 from the
    top and at most at [H - 120]. *)
Theorem cell_bounds_inside (img_w img_h row_i col_i : nat) :
  (743 <= img_w <= 4096)%nat -> (532 <= img_h <= 4096)%nat ->
  (row_i < 4)%nat -> (col_i < 7)%nat ->
  let '(lft, top, rgt, bottom) :=
    cell_bounds (Z.of_nat img_w) (Z.of_nat img_h)
                (Z.of_nat row_i) (Z.of_nat col_i) in
  30 <= lft < rgt /\ rgt <= Z.of_nat img_w - 346 /\
  12 <= top < bottom /\ bottom <= Z.of_nat img_h - 120.
Proof.
  intros Hw Hh Hr Hc.
  pose proof (col_edges_in_range (Z.of_nat img_w) (Z.of_nat col_i)
                ltac:(lia) ltac:(lia)) as Hcol.
  pose proof (row_edges_in_range (Z.of_nat img_h) (Z.of_nat row_i)
                ltac:(lia) ltac:(lia)) as Hrow.
  unfold cell_bounds in *. cbv beta iota zeta in *.
  destruct Hcol as (H1 & H2). destruct Hrow as (H3 & H4 & _).
  repeat split; lia.
Qed.

(** X9: on a sheet between 532 and 4096 pixels high, the top edge of each
    row's cells lies exactly 132 pixels below the bottom edge of the cells
    of the row above: the 120 pixels of caption plus the inset of 12. *)
Theorem cell_bounds_row_gap (img_w img_h : Z) (row_i : nat) (c c' : Z) :
  532 <= img_h <= 4096 -> (row_i < 3)%nat ->
  let '(_, _, _, bottom) := cell_bounds img_w img_h (Z.of_nat row_i) c in
  let '(_, top, _, _) := cell_bounds img_w img_h (Z.of_nat row_i + 1) c' in
  top = bottom + 132.
Proof.
  intros Hh Hr.
  pose proof (row_edges_in_range img_h (Z.of_nat row_i)
                ltac:(lia) ltac:(lia)) as Hrow.
  unfold cell_bounds in *. cbv beta iota zeta in *.
  destruct Hrow as (_ & _ & Hgap). exact Hgap.
Qed.

(** ** main: what a run leaves, and when it aborts *)

Lemma for_each_preserves {T S : Type} (P : S -> Prop) (items : list T)
  (body : T -> S -> result S) :
  (forall x s s', P s -> body x s = Ok s' -> P s') ->
  forall s s', P s -> for_each items body s = Ok s' -> P s'.
Proof.
  intros Hbody. induction items as [|x rest IH]; intros s s' Hs Hrun;
    cbn [for_each] in Hrun.
  - injection Hrun as <-. exact Hs.
  - destruct (body x s) as [s1|e] eqn:Hx; cbn [bind] in Hrun; [| discriminate].
    exact (IH s1 s' (Hbody x s s1 Hs Hx) Hrun).
Qed.

Lemma for_each_raises {T S : Type} (items : list T)
  (body : T -> S -> result S) (x : T) :
  In x items -> (forall s, is_ok (body x s) = false) ->
  forall s, is_ok (for_each items body s) = false.
Proof.
  intros Hin Hx. induction items as [|y rest IH]; [destruct Hin |].
  intros s. cbn [for_each].
  destruct Hin as [-> | Hin].
  - specialize (Hx s). destruct (body x s); [discriminate | reflexivity].
  - destruct (body y s) as [s1|e]; cbn [bind]; [apply IH; exact Hin |].
    reflexivity.
Qed.

(** Removing the listed names one by one: it succeeds when every name is
    a file, and stops at a subdirectory. *)
Lemma os_remove_files (l : list string) (d : gmap string Entry) :
  NoDup l ->
  (forall k, k ∈ l -> exists data, d !! k = Some (File data)) ->
  exists d', for_each l os_remove d = Ok d'.
Proof.
  revert d. induction l as [|x l IH]; intros d Hnd Hall.
  - exists d. reflexivity.
  - apply NoDup_cons in Hnd. destruct Hnd as [Hx Hnd].
    destruct (Hall x ltac:(left)) as [data Hdx].
    cbn [for_each]. unfold os_remove at 1. rewrite Hdx. cbn [bind].
    apply IH; [exact Hnd |].
    intros k Hk. destruct (Hall k ltac:(right; exact Hk)) as [data' Hdk].
    exists data'. rewrite lookup_delete_ne; [exact Hdk |].
    intros ->. contradiction.
Qed.

Lemma os_remove_subdirectory (l : list string) (d : gmap string Entry)
  (name : string) :
  NoDup l -> (forall k, k ∈ l -> is_Some (d !! k)) ->
  name ∈ l -> d !! name = Some Subdirectory ->
  for_each l os_remove d = Raise (OSError "Is a directory").
Proof.
  revert d. induction l as [|x l IH]; intros d Hnd Hall Hin Hsub.
  - inversion Hin.
  - apply NoDup_cons in Hnd. destruct Hnd as [Hx Hnd].
    cbn [for_each]. unfold os_remove at 1.
    destruct (d !! x) as [[data|]|] eqn:Hdx; cbn [bind].
    + assert (Hne : x <> name) by (intros ->; congruence).
      apply IH.
      * exact Hnd.
      * intros k Hk. rewrite lookup_delete_ne; [apply Hall; right; exact Hk |].
        intros ->. contradiction.
      * apply elem_of_cons in Hin. destruct Hin as [-> | Hin];
          [contradiction | exact Hin].
      * rewrite lookup_delete_ne; [exact Hsub | exact Hne].
    + reflexivity.
    + destruct (Hall x ltac:(left)) as [e He]. congruence.
Qed.

Lemma os_listdir_spec (dir : gmap string Entry) :
  NoDup (os_listdir dir) /\
  forall k, k ∈ os_listdir dir <-> is_Some (dir !! k).
Proof.
  unfold os_listdir. split; [apply NoDup_fst_map_to_list |].
  intros k. rewrite list_elem_of_fmap. split.
  - intros ([k' e] & -> & Hin). apply elem_of_map_to_list in Hin.
    exists e. exact Hin.
  - intros [e He]. exists (k, e). split; [reflexivity |].
    apply elem_of_map_to_list. exact He.
Qed.

Lemma clean_output_dir_files (dir : gmap string Entry) :
  map_Forall (fun _ e => entry_ok e) dir ->
  clean_output_dir (Some dir) = Ok ∅.
Proof.
  intros Hok. destruct (os_listdir_spec dir) as [Hnd Hkeys].
  destruct (os_remove_files (os_listdir dir) dir Hnd) as [d' Hd'].
  - intros k Hk. apply Hkeys in Hk. destruct Hk as [e He].
    specialize (Hok k e He). destruct e as [data|]; [| destruct Hok].
    exists data. exact He.
  - cbn [clean_output_dir]. rewrite Hd'. f_equal.
    apply (clean_output_dir_empty (Some dir)). exact Hd'.
Qed.

Section MainOutcome.

Variable lanczos : Image -> nat -> nat -> nat -> nat -> Pixel.
Variable float_pow : float -> float -> float.

Lemma save_cell_png_ok (img : Image) (sp : string) (row_i col_i : nat)
  (s s' : LoopState) :
  map_Forall (fun _ e => png_ok e) s.1 ->
  save_cell lanczos img sp row_i col_i s = Ok s' ->
  map_Forall (fun _ e => png_ok e) s'.1.
Proof.
  destruct s as [out n]. intros Hs Hrun. unfold save_cell in Hrun.
  destruct (Image_crop img _) as [cell|e]; cbn [bind] in Hrun; [| discriminate].
  destruct (crop_and_center lanczos cell 256) as [r|e] eqn:Hr;
    cbn [bind] in Hrun; [| discriminate].
  destruct (index COL_SUFFIXES col_i) as [suffix|e];
    cbn [bind] in Hrun; [| discriminate].
  injection Hrun as <-. cbn [fst] in *.
  apply map_Forall_insert_2; [| exact Hs].
  exact (crop_and_center_size lanczos cell r 256 Hr).
Qed.

Lemma slice_sheets_png_ok (sheets : gmap string Image) (s s' : LoopState) :
  map_Forall (fun _ e => png_ok e) s.1 ->
  for_each SHEETS (slice_sheet lanczos sheets) s = Ok s' ->
  map_Forall (fun _ e => png_ok e) s'.1.
Proof.
  apply (for_each_preserves
           (fun st : LoopState => map_Forall (fun _ e => png_ok e) st.1)).
  intros sh s1 s2 Hs1 Hrun. unfold slice_sheet in Hrun.
  destruct (Image_open sheets (file sh)) as [img|e];
    cbn [bind] in Hrun; [| discriminate].
  revert s1 s2 Hs1 Hrun.
  apply (for_each_preserves
           (fun st : LoopState => map_Forall (fun _ e => png_ok e) st.1)).
  intros row_i s1 s2 Hs1 Hrun. unfold slice_row in Hrun.
  destruct (index (species sh) row_i) as [sp|e];
    cbn [bind] in Hrun; [| discriminate].
  revert s1 s2 Hs1 Hrun.
  apply (for_each_preserves
           (fun st : LoopState => map_Forall (fun _ e => png_ok e) st.1)).
  intros col_i s1 s2. apply save_cell_png_ok.
Qed.

(** The steps of a run that returns. *)
Lemma main_steps (fs fs' : FS) (summary : Summary) :
  main lanczos float_pow fs = Ok (fs', summary) ->
  exists out1 out2 n1,
    clean_output_dir (output_dir fs) = Ok ∅ /\
    for_each SHEETS (slice_sheet lanczos (image_dir fs)) (∅, 0)
    = Ok (out1, n1) /\
    for_each EGG_COLORS write_egg (out1, 0) = Ok (out2, 20) /\
    fs' = mkFS (image_dir fs)
               (Some (<["mystery-evolution.png"%string :=
                        File (PNG (generate_mystery_image float_pow))]> out2)).
Proof.
  intros Hrun. unfold main in Hrun.
  destruct (clean_output_dir (output_dir fs)) as [out0|e] eqn:Hclean;
    cbn [bind] in Hrun; [| discriminate].
  pose proof (clean_output_dir_empty _ _ Hclean) as ->.
  destruct (for_each SHEETS (slice_sheet lanczos (image_dir fs)) (∅, 0))
    as [[out1 n1]|e] eqn:Hslice; cbn [bind] in Hrun; [| discriminate].
  destruct (write_eggs EGG_COLORS expected_svgs_NoDup out1 0)
    as (out2 & Heggs & _).
  rewrite Heggs in Hrun. cbn [bind] in Hrun.
  injection Hrun as <- _.
  exists out1, out2, n1. repeat split; try reflexivity. exact Heggs.
Qed.

Lemma main_after_clean (fs : FS) :
  clean_output_dir (output_dir fs) = Ok ∅ ->
  main lanczos float_pow fs
  = main lanczos float_pow (mkFS (image_dir fs) None).
Proof.
  intros Hclean. unfold main. rewrite Hclean. reflexivity.
Qed.

Lemma main_entries (fs fs' : FS) (summary : Summary) :
  main lanczos float_pow fs = Ok (fs', summary) ->
  exists out1 out : gmap string Entry,
    output_dir fs' = Some out /\ image_dir fs' = image_dir fs /\
    map_Forall (fun _ e => png_ok e) out1 /\
    dom out1 = list_to_set expected_pngs /\
    out !! "mystery-evolution.png"%string
    = Some (File (PNG (generate_mystery_image float_pow))) /\
    (forall sp colors, In (sp, colors) EGG_COLORS ->
       out !! egg_name sp = Some (File (Text (generate_egg_svg sp colors)))) /\
    (forall k, k <> "mystery-evolution.png"%string ->
               ~ In k expected_svgs -> out !! k = out1 !! k).
Proof.
  intros Hrun.
  destruct (main_steps fs fs' summary Hrun)
    as (out1 & out2 & n1 & _ & Hslice & Heggs & ->).
  destruct (write_eggs EGG_COLORS expected_svgs_NoDup out1 0)
    as (out2' & Heggs' & Hin & Hframe).
  rewrite Heggs' in Heggs. injection Heggs as ->.
  exists out1. eexists. split; [reflexivity |]. split; [reflexivity |].
  split.
  { apply (slice_sheets_png_ok (image_dir fs) (∅, 0) (out1, n1));
      [apply map_Forall_empty | exact Hslice]. }
  split.
  { apply (writes_for_each sheet_names) in Hslice;
      [| intros sh _; apply slice_sheet_writes].
    destruct Hslice as [Hd _]. cbn [fst] in Hd.
    rewrite sheet_loop_names, dom_empty_L, (left_id_L ∅ (∪)) in Hd.
    exact Hd. }
  split; [apply lookup_insert_eq |].
  split.
  - intros sp colors Hsp. rewrite lookup_insert_ne; [exact (Hin sp colors Hsp) |].
    intros Heq.
    assert (Hmem : In "mystery-evolution.png"%string expected_svgs).
    { rewrite Heq. unfold expected_svgs, palette_species.
      apply in_map. apply (in_map fst) in Hsp. exact Hsp. }
    revert Hmem. clear. intros Hmem.
    pose proof expected_files_NoDup as Hnd. unfold expected_files in Hnd.
    apply NoDup_app in Hnd. destruct Hnd as (_ & _ & Hnd).
    apply NoDup_app in Hnd. destruct Hnd as (_ & Hdis & _).
    apply (Hdis "mystery-evolution.png"%string).
    + apply list_elem_of_In. exact Hmem.
    + left.
  - intros k Hk1 Hk2. rewrite lookup_insert_ne by congruence.
    apply Hframe. exact Hk2.
Qed.

End MainOutcome.

Lemma expected_pngs_apart (name : string) :
  In name expected_pngs ->
  name <> "mystery-evolution.png"%string /\ ~ In name expected_svgs.
Proof.
  intros Hin. pose proof expected_files_NoDup as Hnd.
  unfold expected_files in Hnd.
  apply NoDup_app in Hnd. destruct Hnd as (_ & Hdis & _).
  apply list_elem_of_In in Hin. specialize (Hdis name Hin).
  split.
  - intros ->. apply Hdis. apply elem_of_app. right. left.
  - intros Hsvg. apply Hdis. apply elem_of_app. left.
    apply list_elem_of_In. exact Hsvg.
Qed.

(** Every entry a run leaves is a file, and a PNG entry holds a 256 by
    256 RGBA image. *)
Lemma main_leaves_files
  (lanczos : Image -> nat -> nat -> nat -> nat -> Pixel)
  (float_pow : float -> float -> float)
  (fs fs' : FS) (summary : Summary) :
  main lanczos float_pow fs = Ok (fs', summary) ->
  exists out : gmap string Entry,
    output_dir fs' = Some out /\ image_dir fs' = image_dir fs /\
    map_Forall (fun _ e => entry_ok e) out.
Proof.
  intros Hrun.
  destruct (main_entries lanczos float_pow fs fs' summary Hrun)
    as (out1 & out & Hout & Himg & Hpng & _ & Hmyst & Heggs & Hframe).
  exists out. split; [exact Hout |]. split; [exact Himg |].
  intros k e Hke.
  destruct (decide (k = "mystery-evolution.png"%string)) as [-> | Hk].
  { rewrite Hmyst in Hke. injection Hke as <-. cbn. auto. }
  destruct (in_dec string_dec k expected_svgs) as [Hsvg | Hsvg].
  - unfold expected_svgs, palette_species in Hsvg.
    apply in_map_iff in Hsvg. destruct Hsvg as (sp & <- & Hsp).
    apply in_map_iff in Hsp. destruct Hsp as ([sp' colors] & Hfst & Hin).
    cbn [fst] in Hfst. subst sp'.
    rewrite (Heggs _ _ Hin) in Hke. injection Hke as <-. exact I.
  - rewrite (Hframe k Hk Hsvg) in Hke.
    specialize (Hpng k e Hke). destruct e as [[img | txt] |];
      cbn in Hpng |- *; tauto.
Qed.

(** X10: a run of [main] that returns leaves only files in the output
    directory, and every PNG among them holds a 256 by 256 RGBA image:
    each name [<species><suffix>.png] is such a PNG, each
    [<species>-1.svg] holds the document generated from the palette entry
    of that species, and [mystery-evolution.png] holds the mystery
    icon. *)
Theorem main_files_well_formed
  (lanczos : Image -> nat -> nat -> nat -> nat -> Pixel)
  (float_pow : float -> float -> float)
  (fs fs' : FS) (summary : Summary) :
  main lanczos float_pow fs = Ok (fs', summary) ->
  exists out : gmap string Entry,
    output_dir fs' = Some out /\
    map_Forall (fun _ e => entry_ok e) out /\
    (forall name, In name expected_pngs ->
       exists img, out !! name = Some (File (PNG img)) /\
                   mode img = M_RGBA /\
                   width img = 256%nat /\ height img = 256%nat) /\
    (forall sp colors, In (sp, colors) EGG_COLORS ->
       out !! egg_name sp = Some (File (Text (generate_egg_svg sp colors)))) /\
    out !! "mystery-evolution.png"%string
    = Some (File (PNG (generate_mystery_image float_pow))).
Proof.
  intros Hrun.
  destruct (main_entries lanczos float_pow fs fs' summary Hrun)
    as (out1 & out & Hout & _ & Hpng & Hdom & Hmyst & Heggs & Hframe).
  destruct (main_leaves_files lanczos float_pow fs fs' summary Hrun)
    as (out' & Hout' & _ & Hok).
  rewrite Hout in Hout'. injection Hout' as <-.
  exists out. split; [exact Hout |]. split; [| split; [| split]].
  - exact Hok.
  - intros name Hname.
    destruct (expected_pngs_apart name Hname) as [Hne Hnsvg].
    rewrite (Hframe name Hne Hnsvg).
    assert (Hin : name ∈ dom out1).
    { rewrite Hdom. apply elem_of_list_to_set, list_elem_of_In. exact Hname. }
    apply elem_of_dom in Hin. destruct Hin as [e He].
    specialize (Hpng name e He). destruct e as [[img | txt] |];
      cbn in Hpng; try contradiction.
    exists img. split; [exact He | exact Hpng].
  - exact Heggs.
  - exact Hmyst.
Qed.

(** X11: when one of the five sheets cannot be opened, [main] raises and
    returns no summary. *)
Theorem main_missing_sheet
  (lanczos : Image -> nat -> nat -> nat -> nat -> Pixel)
  (float_pow : float -> float -> float)
  (fs : FS) (sheet_info : Sheet) :
  In sheet_info SHEETS ->
  image_dir fs !! file sheet_info = None ->
  is_ok (main lanczos float_pow fs) = false.
Proof.
  intros Hin Hmiss. unfold main.
  destruct (clean_output_dir (output_dir fs)) as [out0|e];
    cbn [bind]; [| reflexivity].
  pose proof (for_each_raises SHEETS (slice_sheet lanczos (image_dir fs))
                sheet_info Hin) as Hloop.
  specialize (Hloop ltac:(intros s; unfold slice_sheet, Image_open;
                           rewrite Hmiss; reflexivity) (out0, 0)).
  destruct (for_each SHEETS (slice_sheet lanczos (image_dir fs)) (out0, 0));
    [discriminate Hloop | reflexivity].
Qed.

(** X12: when the output directory holds a subdirectory, [main] raises
    while cleaning, before any sheet is read. *)
Theorem main_subdirectory
  (lanczos : Image -> nat -> nat -> nat -> nat -> Pixel)
  (float_pow : float -> float -> float)
  (fs : FS) (dir : gmap string Entry) (name : string) :
  output_dir fs = Some dir ->
  dir !! name = Some Subdirectory ->
  main lanczos float_pow fs = Raise (OSError "Is a directory").
Proof.
  intros Hdir Hsub. unfold main. rewrite Hdir. cbn [clean_output_dir].
  destruct (os_listdir_spec dir) as [Hnd Hkeys].
  rewrite (os_remove_subdirectory (os_listdir dir) dir name Hnd).
  - reflexivity.
  - intros k Hk. apply Hkeys. exact Hk.
  - apply Hkeys. exists Subdirectory. exact Hsub.
  - exact Hsub.
Qed.

(** X13: running [main] again on the file system a run has left gives the
    same directory and the same counts: the output directory is rebuilt
    from scratch. *)
Theorem main_rerun
  (lanczos : Image -> nat -> nat -> nat -> nat -> Pixel)
  (float_pow : float -> float -> float)
  (fs fs' : FS) (summary : Summary) :
  main lanczos float_pow fs = Ok (fs', summary) ->
  main lanczos float_pow fs' = Ok (fs', summary).
Proof.
  intros Hrun.
  destruct (main_steps lanczos float_pow fs fs' summary Hrun)
    as (_ & _ & _ & Hclean & _).
  destruct (main_leaves_files lanczos float_pow fs fs' summary Hrun)
    as (out & Hout & Himg & Hok).
  rewrite (main_after_clean lanczos float_pow fs');
    [| rewrite Hout; apply clean_output_dir_files; exact Hok].
  rewrite Himg, <- (main_after_clean lanczos float_pow fs Hclean).
  exact Hrun.
Qed.

(** X14: what a run returns depends on the sheets alone, not on what the
    output directory held before: two runs over the same sheets that both
    return leave the same file system and print the same counts. *)
Theorem main_depends_on_sheets_only
  (lanczos : Image -> nat -> nat -> nat -> nat -> Pixel)
  (float_pow : float -> float -> float)
  (fs1 fs2 fs1' fs2' : FS) (s1 s2 : Summary) :
  image_dir fs1 = image_dir fs2 ->
  main lanczos float_pow fs1 = Ok (fs1', s1) ->
  main lanczos float_pow fs2 = Ok (fs2', s2) ->
  fs1' = fs2' /\ s1 = s2.
Proof.
  intros Himg H1 H2.
  destruct (main_steps lanczos float_pow fs1 fs1' s1 H1)
    as (_ & _ & _ & Hc1 & _).
  destruct (main_steps lanczos float_pow fs2 fs2' s2 H2)
    as (_ & _ & _ & Hc2 & _).
  rewrite (main_after_clean lanczos float_pow fs1 Hc1), Himg in H1.
  rewrite (main_after_clean lanczos float_pow fs2 Hc2), H1 in H2.
  injection H2 as <- <-. split; reflexivity.
Qed.

(** ** Egg icons for any palette *)

#[local] Arguments String.append !s1 s2 : simpl nomatch.

Lemma append_assoc (a b c : string) :
  ((a ++ b) ++ c = a ++ (b ++ c))%string.
Proof.
  induction a as [|ch a IH]; [reflexivity |].
  cbn [append]. rewrite IH. reflexivity.
Qed.

(** X15: for every species name and every palette, the generated document
    starts with the same 99 characters, which are followed by the
    "egg-grad" gradient with the stops spot (0%), primary (60%) and
    secondary (100%) in that order; the species name itself does not
    enter the document. *)
Theorem generate_egg_svg_gradient (sp : string) (colors : Colors) :
  (exists after : string,
     generate_egg_svg sp colors
     = String.concat ""
         [egg_prefix;
          egg_grad_element (spot colors) (primary colors) (secondary colors);
          after]) /\
  String.length egg_prefix = 99%nat /\
  forall other : string,
    generate_egg_svg other colors = generate_egg_svg sp colors.
Proof.
  split; [| split; reflexivity].
  destruct colors as [c1 c2 c0]. eexists.
  unfold generate_egg_svg, egg_grad_element, egg_prefix, Svg.line, Svg.attr,
    Svg.dq, Svg.nl.
  cbn [String.concat app append primary secondary spot ascii_of_nat
       ascii_of_pos Pos.of_succ_nat Pos.succ].
  repeat (rewrite !append_assoc; cbn [append]).
  reflexivity.
Qed.

(** ** Mystery icon *)

Lemma get_Some_lt (s : string) (n : nat) (ch : ascii) :
  String.get n s = Some ch -> (n < String.length s)%nat.
Proof.
  revert n. induction s as [|c s IH]; intros n H; [discriminate |].
  destruct n as [|n]; cbn [String.length]; [lia |].
  cbn [String.get] in H. apply IH in H. lia.
Qed.

Lemma glyph_marked_bounds (row_i col_i : nat) :
  glyph_marked row_i col_i = true -> (row_i < 11)%nat /\ (col_i < 9)%nat.
Proof.
  unfold glyph_marked. intros H.
  destruct (question_mark !! row_i) as [row|] eqn:Hrow; [| discriminate].
  destruct (String.get col_i row) as [ch|] eqn:Hget; [| discriminate].
  apply get_Some_lt in Hget.
  assert (Hlen : Forall (fun s => String.length s = 9%nat) question_mark)
    by (repeat constructor).
  pose proof (proj1 (Forall_lookup _ _) Hlen row_i row Hrow) as Hrowlen.
  apply lookup_lt_Some in Hrow. cbn [length question_mark] in Hrow.
  cbn beta in Hrowlen. lia.
Qed.

Lemma mystery_pixel_unfold (float_pow : float -> float -> float) (x y : Z) :
  mystery_pixel float_pow x y
  = if (0 <=? x - 101) && (0 <=? y - 95) &&
       glyph_marked (Z.to_nat ((y - 95) / 6)) (Z.to_nat ((x - 101) / 6)) &&
       (0 <=? x) && (x <? 256) && (0 <=? y) && (y <? 256)
    then rgba 180 160 220 255
    else mystery_background float_pow x y.
Proof. reflexivity. Qed.

(** X16: the shape of the mystery icon, whatever the platform's [pow]
    returns: every alpha value is 0, 200 or 255; a pixel is opaque exactly
    when it lies in a marked cell of the question-mark glyph drawn at
    scale 6 from (101, 95), it is then the lavender (180, 160, 220), and
    all such pixels lie in the box 101 <= x < 155, 95 <= y < 161; every
    pixel further than 110 from the centre line in x or in y is
    transparent black; every pixel within 110 of both centre lines and
    within 90 of one of them is not transparent. *)
Theorem mystery_image_shape (float_pow : float -> float -> float)
  (x y : nat) :
  let p := getpixel (generate_mystery_image float_pow) x y in
  (A p = u8 0 \/ A p = u8 200 \/ A p = u8 255) /\
  (A p = u8 255 <->
   101 <= Z.of_nat x < 155 /\ 95 <= Z.of_nat y < 161 /\
   glyph_marked (Z.to_nat ((Z.of_nat y - 95) / 6))
                (Z.to_nat ((Z.of_nat x - 101) / 6)) = true) /\
  (A p = u8 255 -> p = rgba 180 160 220 255) /\
  (110 < Z.abs (Z.of_nat x - 128) \/ 110 < Z.abs (Z.of_nat y - 128) ->
   p = transparent) /\
  (Z.abs (Z.of_nat x - 128) <= 110 -> Z.abs (Z.of_nat y - 128) <= 110 ->
   Z.abs (Z.of_nat x - 128) <= 90 \/ Z.abs (Z.of_nat y - 128) <= 90 ->
   A p <> u8 0).
Proof.
  cbv zeta. cbn [generate_mystery_image getpixel].
  rewrite mystery_pixel_unfold.
  set (X := Z.of_nat x). set (Y := Z.of_nat y).
  assert (HX : 0 <= X) by (subst X; lia).
  assert (HY : 0 <= Y) by (subst Y; lia).
  assert (Hbg : (A (mystery_background float_pow X Y) = u8 0 /\
                 mystery_background float_pow X Y = transparent) \/
                (A (mystery_background float_pow X Y) = u8 200 /\
                 Z.abs (X - 128) <= 110 /\ Z.abs (Y - 128) <= 110)).
  { unfold mystery_background. cbv zeta.
    destruct (Z.ltb_spec 110 (Z.abs (X - 128)));
      [left; split; reflexivity |].
    destruct (Z.ltb_spec 110 (Z.abs (Y - 128)));
      [left; split; reflexivity |].
    cbn [orb].
    destruct (400 <? _); [left; split; reflexivity |].
    right. split; [reflexivity | lia]. }
  assert (Hbg90 : Z.abs (X - 128) <= 110 -> Z.abs (Y - 128) <= 110 ->
                  Z.abs (X - 128) <= 90 \/ Z.abs (Y - 128) <= 90 ->
                  A (mystery_background float_pow X Y) = u8 200).
  { intros H1 H2 H3. unfold mystery_background. cbv zeta.
    destruct (Z.ltb_spec 110 (Z.abs (X - 128))); [lia |].
    destruct (Z.ltb_spec 110 (Z.abs (Y - 128))); [lia |].
    cbn [orb].
    destruct (Z.ltb_spec 400 (Z.max 0 (Z.abs (X - 128) - 90) ^ 2 +
                              Z.max 0 (Z.abs (Y - 128) - 90) ^ 2))
      as [Hc | Hc]; [| reflexivity].
    exfalso. destruct H3 as [H3 | H3].
    - rewrite (Z.max_l 0 (Z.abs (X - 128) - 90)) in Hc by lia. nia.
    - rewrite (Z.max_l 0 (Z.abs (Y - 128) - 90)) in Hc by lia. nia. }
  destruct ((0 <=? X - 101) && (0 <=? Y - 95) &&
            glyph_marked (Z.to_nat ((Y - 95) / 6)) (Z.to_nat ((X - 101) / 6)) &&
            (0 <=? X) && (X <? 256) && (0 <=? Y) && (Y <? 256)) eqn:Hg.
  - apply andb_true_iff in Hg. destruct Hg as [Hg _].
    apply andb_true_iff in Hg. destruct Hg as [Hg _].
    apply andb_true_iff in Hg. destruct Hg as [Hg _].
    apply andb_true_iff in Hg. destruct Hg as [Hg _].
    apply andb_true_iff in Hg. destruct Hg as [Hg Hglyph].
    apply andb_true_iff in Hg. destruct Hg as [Hx0 Hy0].
    apply Z.leb_le in Hx0, Hy0.
    pose proof (glyph_marked_bounds _ _ Hglyph) as [Hrow Hcol].
    assert (Hdx : 0 <= (X - 101) / 6 < 9).
    { split; [apply Z.div_pos; lia | lia]. }
    assert (Hdy : 0 <= (Y - 95) / 6 < 11).
    { split; [apply Z.div_pos; lia | lia]. }
    assert (HX' : 101 <= X < 155).
    { pose proof (Z.div_mod (X - 101) 6 ltac:(lia)).
      pose proof (Z.mod_pos_bound (X - 101) 6 ltac:(lia)). lia. }
    assert (HY' : 95 <= Y < 161).
    { pose proof (Z.div_mod (Y - 95) 6 ltac:(lia)).
      pose proof (Z.mod_pos_bound (Y - 95) 6 ltac:(lia)). lia. }
    split; [right; right; reflexivity |].
    split; [split; [intros _; auto | reflexivity] |].
    split; [reflexivity |].
    split; [lia |]. intros _ _ _. discriminate.
  - assert (Hnot : ~ (101 <= X < 155 /\ 95 <= Y < 161 /\
                      glyph_marked (Z.to_nat ((Y - 95) / 6))
                                   (Z.to_nat ((X - 101) / 6)) = true)).
    { intros (H1 & H2 & H3). rewrite H3 in Hg.
      destruct (Z.leb_spec 0 (X - 101)); [| lia].
      destruct (Z.leb_spec 0 (Y - 95)); [| lia].
      destruct (Z.leb_spec 0 X); [| lia].
      destruct (Z.ltb_spec X 256); [| lia].
      destruct (Z.leb_spec 0 Y); [| lia].
      destruct (Z.ltb_spec Y 256); [| lia].
      discriminate Hg. }
    split.
    { destruct Hbg as [[Ha _] | [Ha _]]; rewrite Ha; auto. }
    split.
    { split; [| intros H; contradiction].
      intros Ha. destruct Hbg as [[Hb _] | [Hb _]]; rewrite Hb in Ha;
        discriminate Ha. }
    split.
    { intros Ha. destruct Hbg as [[Hb _] | [Hb _]]; rewrite Hb in Ha;
        discriminate Ha. }
    split.
    { intros Hfar. destruct Hbg as [[_ Hb] | [_ Hb]]; [exact Hb | lia]. }
    intros H1 H2 H3. rewrite (Hbg90 H1 H2 H3). discriminate.
Qed.

(** ** The further properties at sample inputs *)

Lemma auto_crop_alpha_tight_witness :
  visible red_dot 0 0 = true /\
  exists c, auto_crop_alpha red_dot = Ok c /\
            (0 < width c)%nat /\ col_visible c 0 = true.
Proof.
  assert (Hv : visible red_dot 0 0 = true) by (vm_compute; reflexivity).
  split; [exact Hv |].
  destruct (auto_crop_alpha_tight red_dot 0 0 ltac:(simpl; lia)
              ltac:(simpl; lia) Hv)
    as (c & Hc & Hw & _ & Hc0 & _).
  exists c. auto.
Defined.

Lemma crop_and_center_layout_witness :
  exists r, crop_and_center nearest red_dot 256 = Ok r /\
            mode r = M_RGBA /\ width r = 256%nat /\ height r = 256%nat /\
            exists c, auto_crop_alpha (remove_checkerboard_bg red_dot) = Ok c.
Proof.
  assert (Hok : is_ok (crop_and_center nearest red_dot 256) = true)
    by (vm_compute; reflexivity).
  destruct (crop_and_center nearest red_dot 256) as [r|e] eqn:Hrun;
    [| discriminate Hok].
  exists r. split; [reflexivity |].
  destruct (crop_and_center_layout nearest red_dot r 256 Hrun)
    as (Hm & Hw & Hh & c & Hc & _).
  split; [exact Hm |]. split; [exact Hw |]. split; [exact Hh |].
  exists c. exact Hc.
Defined.

Lemma crop_and_center_padding_witness :
  exists r, crop_and_center nearest red_dot 256 = Ok r /\
            getpixel r 0 0 = transparent.
Proof.
  assert (Hok : is_ok (crop_and_center nearest red_dot 256) = true)
    by (vm_compute; reflexivity).
  destruct (crop_and_center nearest red_dot 256) as [r|e] eqn:Hrun;
    [| discriminate Hok].
  exists r. split; [reflexivity |].
  apply (crop_and_center_padding nearest red_dot r
           ltac:(simpl; lia) ltac:(simpl; lia) Hrun).
  left. lia.
Defined.

Lemma only_background_gray_dot : only_background gray_dot.
Proof.
  intros x y _ _. left. apply is_gray_true. vm_compute. reflexivity.
Qed.

Lemma crop_and_center_background_only_witness :
  exists r, crop_and_center nearest gray_dot 256 = Ok r /\
            getpixel r 128 128 = transparent.
Proof.
  assert (Hok : is_ok (crop_and_center nearest gray_dot 256) = true)
    by (vm_compute; reflexivity).
  destruct (crop_and_center nearest gray_dot 256) as [r|e] eqn:Hrun;
    [| discriminate Hok].
  exists r. split; [reflexivity |].
  exact (crop_and_center_background_only nearest gray_dot r 256
           nearest_keeps_transparency_within only_background_gray_dot
           Hrun 128%nat 128%nat).
Defined.

Lemma cell_bounds_inside_witness :
  let '(lft, top, rgt, bottom) := cell_bounds 2816 1536 0 0 in
  30 <= lft < rgt /\ rgt <= 2816 - 346 /\
  12 <= top < bottom /\ bottom <= 1536 - 120.
Proof.
  exact (cell_bounds_inside 2816 1536 0 0 ltac:(lia) ltac:(lia)
           ltac:(lia) ltac:(lia)).
Defined.

Lemma cell_bounds_row_gap_witness :
  let '(_, _, _, bottom) := cell_bounds 2816 1536 0 0 in
  let '(_, top, _, _) := cell_bounds 2816 1536 1 0 in
  top = bottom + 132.
Proof.
  exact (cell_bounds_row_gap 2816 1536 0 0 0 ltac:(lia) ltac:(lia)).
Defined.

Lemma main_files_well_formed_witness :
  exists fs' summary,
    main nearest sqrt_pow sample_fs = Ok (fs', summary) /\
    exists out : gmap string Entry,
      output_dir fs' = Some out /\
      map_Forall (fun _ e => entry_ok e) out.
Proof.
  assert (Hok : is_ok (main nearest sqrt_pow sample_fs) = true)
    by (vm_compute; reflexivity).
  destruct (main nearest sqrt_pow sample_fs) as [[fs' summary]|e] eqn:Hrun;
    [| discriminate Hok].
  exists fs', summary. split; [reflexivity |].
  destruct (main_files_well_formed nearest sqrt_pow sample_fs fs' summary Hrun)
    as (out & Hout & Hall & _).
  exists out. auto.
Defined.

Lemma main_missing_sheet_witness :
  is_ok (main nearest sqrt_pow empty_fs) = false.
Proof.
  apply (main_missing_sheet nearest sqrt_pow empty_fs
           (mkSheet "Gemini_Generated_Image_quvfovquvfovquvf.png"
                    ["spirit_dog"; "chick_bird"; "young_scale"; "beetle"])).
  - left. reflexivity.
  - reflexivity.
Defined.

Lemma main_subdirectory_witness :
  main nearest sqrt_pow blocked_fs = Raise (OSError "Is a directory").
Proof.
  apply (main_subdirectory nearest sqrt_pow blocked_fs
           {[ "backup"%string := Subdirectory ]} "backup").
  - reflexivity.
  - vm_compute. reflexivity.
Defined.

Lemma main_rerun_witness :
  exists fs' summary,
    main nearest sqrt_pow sample_fs = Ok (fs', summary) /\
    main nearest sqrt_pow fs' = Ok (fs', summary).
Proof.
  assert (Hok : is_ok (main nearest sqrt_pow sample_fs) = true)
    by (vm_compute; reflexivity).
  destruct (main nearest sqrt_pow sample_fs) as [[fs' summary]|e] eqn:Hrun;
    [| discriminate Hok].
  exists fs', summary. split; [reflexivity |].
  exact (main_rerun nearest sqrt_pow sample_fs fs' summary Hrun).
Defined.

Lemma main_depends_on_sheets_only_witness :
  exists fs1' s1 fs2' s2,
    main nearest sqrt_pow sample_fs = Ok (fs1', s1) /\
    main nearest sqrt_pow stale_fs = Ok (fs2', s2) /\
    fs1' = fs2' /\ s1 = s2.
Proof.
  assert (Hok1 : is_ok (main nearest sqrt_pow sample_fs) = true)
    by (vm_compute; reflexivity).
  assert (Hok2 : is_ok (main nearest sqrt_pow stale_fs) = true)
    by (vm_compute; reflexivity).
  destruct (main nearest sqrt_pow sample_fs) as [[fs1' s1]|e] eqn:Hrun1;
    [| discriminate Hok1].
  destruct (main nearest sqrt_pow stale_fs) as [[fs2' s2]|e] eqn:Hrun2;
    [| discriminate Hok2].
  exists fs1', s1, fs2', s2. split; [reflexivity |]. split; [reflexivity |].
  exact (main_depends_on_sheets_only nearest sqrt_pow sample_fs stale_fs
           fs1' fs2' s1 s2 eq_refl Hrun1 Hrun2).
Defined.

Lemma scaled_size_longer_side_witness :
  scaled_size 256 55 55 = (223, 223) /\
  let '(new_w, new_h) := scaled_size 256 297 252 in
  0 <= new_w <= 224 /\ 0 <= new_h <= 224 /\
  (Z.max new_w new_h = 223 \/ Z.max new_w new_h = 224) /\
  ((252 <= 297)%nat -> new_h <= new_w) /\ ((297 <= 252)%nat -> new_w <= new_h).
Proof.
  split; [vm_compute; reflexivity |].
  exact (scaled_size_longer_side 297 252 ltac:(lia) ltac:(lia)).
Defined.
